(** * stream2sentence: a shallow embedding of [stream2sentence.py]

    The development follows the Python module top-down: Python strings and
    the string methods the module calls, the text sanitizer
    ([_remove_links], [_remove_emojis], [_clean_text]), the tokenizer
    dispatch with its process-wide globals, the [SentenceSplitter] class
    ([__init__], [add], [stream], [flush]) and the two entry points
    ([generate_sentences_async], [generate_sentences]). *)

From Stdlib Require Import String Ascii ZArith NArith Bool Lia List.
Import ListNotations.


(** ** Python strings *)

(** A Python [str] is a sequence of Unicode code points. *)
Definition char := N.
Definition text := list char.

(** ASCII literals, for readable examples. *)
Definition str (s : string) : text :=
  map N_of_ascii (list_ascii_of_string s).

Definition len (t : text) : Z := Z.of_nat (length t).

Definition char_eqb (a b : char) : bool := N.eqb a b.

(** [c in s] for a one-character [c]. *)
Definition char_in (c : char) (s : text) : bool := existsb (char_eqb c) s.

Definition in_range (lo hi c : char) : bool := (N.leb lo c) && (N.leb c hi).

Local Open Scope N_scope.

(** [str.isspace] on one code point: the code points CPython classifies as
    whitespace (the same set [str.strip] removes). *)
Definition isspace (c : char) : bool :=
  in_range 9 13 c || in_range 28 32 c || N.eqb c 133 || N.eqb c 160
  || N.eqb c 5760 || in_range 8192 8202 c || N.eqb c 8232 || N.eqb c 8233
  || N.eqb c 8239 || N.eqb c 8287 || N.eqb c 12288.

Fixpoint drop_while (p : char -> bool) (t : text) : text :=
  match t with
  | [] => []
  | c :: r => if p c then drop_while p r else t
  end.

Fixpoint take_while (p : char -> bool) (t : text) : text :=
  match t with
  | [] => []
  | c :: r => if p c then c :: take_while p r else []
  end.

Definition lstrip (t : text) : text := drop_while isspace t.
Definition rstrip (t : text) : text := rev (drop_while isspace (rev t)).
Definition strip (t : text) : text := rstrip (lstrip t).

(** [s.endswith(" ")]. *)
Definition endswith_space (t : text) : bool :=
  match rev t with
  | c :: _ => N.eqb c 32
  | [] => false
  end.

Local Close Scope N_scope.

(** [bool(s)] of a string. *)
Definition nonempty (t : text) : bool :=
  match t with [] => false | _ => true end.

(** [len(s.split())]: the number of whitespace-delimited words. *)
Fixpoint count_words_from (inside : bool) (t : text) : nat :=
  match t with
  | [] => 0
  | c :: r =>
      if isspace c then count_words_from false r
      else if inside then count_words_from true r
      else S (count_words_from true r)
  end.

Definition word_count_of (t : text) : Z := Z.of_nat (count_words_from false t).

(** ** TextSanitizer *)

(** *** [_remove_links]

    The pattern is
    [http[s]?://(?:[a-zA-Z]|[0-9]|[$-_@.&+]|[!*\(\),]|(?:%[0-9a-fA-F][0-9a-fA-F]))+]
    and [re.sub] replaces every leftmost non-overlapping match by the empty
    string. *)

Local Open Scope N_scope.

Definition is_alpha (c : char) : bool := in_range 97 122 c || in_range 65 90 c.
Definition is_digit (c : char) : bool := in_range 48 57 c.
(** [[$-_@.&+]]: the range from [$] (36) to [_] (95), and [@], [.], [&], [+]. *)
Definition is_class3 (c : char) : bool :=
  in_range 36 95 c || N.eqb c 64 || N.eqb c 46 || N.eqb c 38 || N.eqb c 43.
(** [[!*\(\),]] *)
Definition is_class4 (c : char) : bool :=
  N.eqb c 33 || N.eqb c 42 || N.eqb c 40 || N.eqb c 41 || N.eqb c 44.
Definition is_hex (c : char) : bool :=
  is_digit c || in_range 97 102 c || in_range 65 70 c.

(** One iteration of the repeated group: the alternatives in their order.
    Returns the text after the iteration. *)
Definition link_unit (t : text) : option text :=
  match t with
  | [] => None
  | c :: r =>
      if is_alpha c || is_digit c || is_class3 c || is_class4 c then Some r
      else
        match r with
        | h1 :: h2 :: r' =>
            if char_eqb c 37 && is_hex h1 && is_hex h2 then Some r' else None
        | _ => None
        end
  end.

Local Close Scope N_scope.

(** The greedy [(...)+] after a first iteration: as many iterations as match. *)
Fixpoint link_units (fuel : nat) (t : text) : text :=
  match fuel with
  | O => t
  | S f =>
      match link_unit t with
      | Some r => link_units f r
      | None => t
      end
  end.

Fixpoint strip_prefix (p t : text) : option text :=
  match p, t with
  | [], _ => Some t
  | a :: p', b :: t' => if char_eqb a b then strip_prefix p' t' else None
  | _ :: _, [] => None
  end.

(** [[c]?]: consume one [c] when it is there. *)
Definition optional_char (c : char) (t : text) : text :=
  match t with
  | a :: r => if char_eqb a c then r else t
  | [] => t
  end.

(** A match of the whole pattern at the head of [t]; the text after it. *)
Definition match_link (t : text) : option text :=
  match strip_prefix (str "http") t with
  | None => None
  | Some t1 =>
      let t2 := optional_char 115%N t1 in
      match strip_prefix (str "://") t2 with
      | None => None
      | Some t3 =>
          match link_unit t3 with
          | None => None
          | Some t4 => Some (link_units (length t4) t4)
          end
      end
  end.

(** [re.sub(pattern, "", text)]: scan left to right, drop each match. *)
Fixpoint sub_links (fuel : nat) (t : text) : text :=
  match fuel with
  | O => t
  | S f =>
      match t with
      | [] => []
      | c :: r =>
          match match_link t with
          | Some rest => sub_links f rest
          | None => c :: sub_links f r
          end
      end
  end.

Definition _remove_links (t : text) : text := sub_links (length t) t.

Section Sanitizer.

(** Modelled from the spec: [emoji.replace_emoji] belongs to the external
    [emoji] package; the spec describes it as stripping the characters
    recognized as emoji by a standard classification table, taken here as
    [is_emoji]. *)
Variable is_emoji : char -> bool.

Definition _remove_emojis (t : text) : text :=
  filter (fun c => negb (is_emoji c)) t.

Definition _clean_text (t : text) (cleanup_text_links cleanup_text_emojis
                                   strip_text : bool) : text :=
  let t := if cleanup_text_links then _remove_links t else t in
  let t := if cleanup_text_emojis then _remove_emojis t else t in
  if strip_text then strip t else t.

End Sanitizer.


(** A concrete fragment of the emoji table (the Emoticons block
    U+1F600..U+1F64F), for closed examples. *)
Definition emoticons (c : char) : bool := in_range 128512%N 128591%N c.


(** ** Exceptions, logging and the external libraries *)

Inductive exn : Type :=
| ValueError (msg : string)
| IndexError
| TypeError
| ModuleNotFoundError
| RuntimeError (msg : string)
| LibraryError (msg : string).

Inductive result (A : Type) : Type :=
| Ok (a : A)
| Raise (e : exn).
Arguments Ok {A} a.
Arguments Raise {A} e.

(** A sentence tokenizer: a text to its sentences, or an exception. *)
Definition tokenize_fn := text -> result (list text).

Inductive log_record : Type :=
| LogInfo (msg : string)
| LogWarning (msg : string)
| Printed (msg : string).

(** What the module takes from outside the repository: [str.isalnum] (the
    Unicode tables), the emoji table, NLTK and Stanza. *)
Record runtime : Type := {
  isalnum : char -> bool;
  is_emoji : char -> bool;
  (** [import nltk; nltk.download("punkt_tab")] completes without raising *)
  nltk_download_ok : bool;
  (** [import nltk; nltk.tokenize.sent_tokenize(text)] *)
  nltk_sent_tokenize : tokenize_fn;
  (** [import stanza] succeeds: the package is installed *)
  stanza_installed : bool;
  (** [import stanza], [stanza.download(language)] unless offline, then
      [stanza.Pipeline(language)]; [None] when one of them raises.  The
      pipeline is used as [[s.text for s in nlp(text).sentences]]. *)
  stanza_Pipeline : string -> bool -> option tokenize_fn
}.

(** ** Module globals *)

Record globals : Type := {
  current_tokenizer : string;
  stanza_initialized : bool;
  nltk_initialized : bool;
  nlp : option tokenize_fn
}.

Definition module_globals : globals :=
  {| current_tokenizer := "nltk";
     stanza_initialized := false;
     nltk_initialized := false;
     nlp := None |}.

Definition set_current_tokenizer (g : globals) (name : string) : globals :=
  {| current_tokenizer := name;
     stanza_initialized := stanza_initialized g;
     nltk_initialized := nltk_initialized g;
     nlp := nlp g |}.

Section Tokenizers.

Variable rt : runtime.

Definition initialize_nltk (g : globals) : globals * list log_record :=
  if nltk_initialized g then (g, [])
  else
    ({| current_tokenizer := current_tokenizer g;
        stanza_initialized := stanza_initialized g;
        nltk_initialized := nltk_download_ok rt;
        nlp := nlp g |},
     LogInfo "Initializing NLTK Tokenizer"
     :: (if nltk_download_ok rt then []
         else [Printed "Error initializing nltk tokenizer"])).

Definition initialize_stanza (g : globals) (language : string)
           (offline : bool) : globals * list log_record :=
  if stanza_initialized g then (g, [])
  else
    match stanza_Pipeline rt language offline with
    | Some pipeline =>
        ({| current_tokenizer := current_tokenizer g;
            stanza_initialized := true;
            nltk_initialized := nltk_initialized g;
            nlp := Some pipeline |},
         [LogInfo "Initializing Stanza Tokenizer"])
    | None =>
        ({| current_tokenizer := current_tokenizer g;
            stanza_initialized := false;
            nltk_initialized := nltk_initialized g;
            nlp := nlp g |},
         [LogInfo "Initializing Stanza Tokenizer";
          Printed "Error initializing stanza tokenizer"])
    end.

Definition init_tokenizer (g : globals) (tokenizer language : string)
           (offline : bool) : globals * list log_record :=
  if String.eqb tokenizer "nltk" then initialize_nltk g
  else if String.eqb tokenizer "stanza" then
         initialize_stanza g language offline
  else (g, [LogWarning (String.append "Unknown tokenizer: " tokenizer)]).

Definition _tokenize_sentences (g : globals) (t : text)
           (tokenize_sentences : option tokenize_fn) : result (list text) :=
  match tokenize_sentences with
  | Some f => f t
  | None =>
      if String.eqb (current_tokenizer g) "nltk" then
        nltk_sent_tokenize rt t
      else if String.eqb (current_tokenizer g) "stanza" then
        match nlp g with
        | Some pipeline => pipeline t
        | None =>
            (* [import stanza] comes first; then [nlp(text)] with [nlp]
               still [None] *)
            if stanza_installed rt then Raise TypeError
            else Raise ModuleNotFoundError
        end
      else
        Raise (ValueError
                 (String.append "Unknown tokenizer: " (current_tokenizer g)))
  end.

End Tokenizers.

(** ** [SentenceSplitter] *)

(** The keyword arguments of [SentenceSplitter] and of the entry points. *)
Record options : Type := {
  context_size : Z;
  context_size_look_overhead : Z;
  minimum_sentence_length : Z;
  minimum_first_fragment_length : Z;
  quick_yield_single_sentence_fragment : bool;
  quick_yield_for_all_sentences : bool;
  quick_yield_every_fragment : bool;
  cleanup_text_links : bool;
  cleanup_text_emojis : bool;
  tokenize_sentences : option tokenize_fn;
  tokenizer : string;
  language : string;
  log_characters : bool;
  sentence_fragment_delimiters : text;
  full_sentence_delimiters : text;
  force_first_fragment_after_words : Z;
  filter_first_non_alnum_characters : bool;
  debug : bool
}.

(** [".?!;:,\n…)]}。-"] and [".?!\n…。"] *)
Definition default_fragment_delimiters : text :=
  str ".?!;:," ++ [10%N; 8230%N] ++ str ")]}" ++ [12290%N] ++ str "-".
Definition default_full_delimiters : text :=
  str ".?!" ++ [10%N; 8230%N; 12290%N].

Definition default_options : options :=
  {| context_size := 12;
     context_size_look_overhead := 12;
     minimum_sentence_length := 10;
     minimum_first_fragment_length := 10;
     quick_yield_single_sentence_fragment := false;
     quick_yield_for_all_sentences := false;
     quick_yield_every_fragment := false;
     cleanup_text_links := false;
     cleanup_text_emojis := false;
     tokenize_sentences := None;
     tokenizer := "nltk";
     language := "en";
     log_characters := false;
     sentence_fragment_delimiters := default_fragment_delimiters;
     full_sentence_delimiters := default_full_delimiters;
     force_first_fragment_after_words := 30;
     filter_first_non_alnum_characters := false;
     debug := false |}.

(** The flags as [__init__] stores them: "every fragment" switches on "all
    sentences", which switches on "single fragment". *)
Definition adjust_flags (o : options) : options :=
  let all := quick_yield_every_fragment o || quick_yield_for_all_sentences o in
  let single := all || quick_yield_single_sentence_fragment o in
  {| context_size := context_size o;
     context_size_look_overhead := context_size_look_overhead o;
     minimum_sentence_length := minimum_sentence_length o;
     minimum_first_fragment_length := minimum_first_fragment_length o;
     quick_yield_single_sentence_fragment := single;
     quick_yield_for_all_sentences := all;
     quick_yield_every_fragment := quick_yield_every_fragment o;
     cleanup_text_links := cleanup_text_links o;
     cleanup_text_emojis := cleanup_text_emojis o;
     tokenize_sentences := tokenize_sentences o;
     tokenizer := tokenizer o;
     language := language o;
     log_characters := log_characters o;
     sentence_fragment_delimiters := sentence_fragment_delimiters o;
     full_sentence_delimiters := full_sentence_delimiters o;
     force_first_fragment_after_words := force_first_fragment_after_words o;
     filter_first_non_alnum_characters := filter_first_non_alnum_characters o;
     debug := debug o |}.

(** The object: the attributes [__init__] copies from its arguments
    ([config]) and the five attributes the methods assign. *)
Record SentenceSplitter : Type := {
  config : options;
  input_buffer : list text;
  buffer : text;
  is_first_sentence : bool;
  word_count : Z;
  last_delimiter_position : Z
}.

Definition set_input_buffer (s : SentenceSplitter) (q : list text) :=
  {| config := config s; input_buffer := q; buffer := buffer s;
     is_first_sentence := is_first_sentence s; word_count := word_count s;
     last_delimiter_position := last_delimiter_position s |}.

Definition set_buffer (s : SentenceSplitter) (b : text) :=
  {| config := config s; input_buffer := input_buffer s; buffer := b;
     is_first_sentence := is_first_sentence s; word_count := word_count s;
     last_delimiter_position := last_delimiter_position s |}.

Definition set_is_first_sentence (s : SentenceSplitter) (b : bool) :=
  {| config := config s; input_buffer := input_buffer s; buffer := buffer s;
     is_first_sentence := b; word_count := word_count s;
     last_delimiter_position := last_delimiter_position s |}.

Definition set_word_count (s : SentenceSplitter) (n : Z) :=
  {| config := config s; input_buffer := input_buffer s; buffer := buffer s;
     is_first_sentence := is_first_sentence s; word_count := n;
     last_delimiter_position := last_delimiter_position s |}.

Definition set_last_delimiter_position (s : SentenceSplitter) (n : Z) :=
  {| config := config s; input_buffer := input_buffer s; buffer := buffer s;
     is_first_sentence := is_first_sentence s; word_count := word_count s;
     last_delimiter_position := n |}.

(** The [yield] statement a sentence comes from. *)
Inductive site : Type :=
| QuickYield   (* the first-fragment yield of [stream] *)
| Commit       (* the sentence yield of [stream] *)
| FlushFull    (* the yield inside the loop of [flush] *)
| FlushRest.   (* the yield of the remaining text in [flush] *)

Definition emission : Type := site * text.

(** A generator run to its end: what it yielded, the object afterwards, and
    the exception that ended it, if one did. *)
Record run : Type := {
  yielded : list emission;
  after : SentenceSplitter;
  raised : option exn
}.

Definition done (s : SentenceSplitter) : run :=
  {| yielded := []; after := s; raised := None |}.

Definition raising (s : SentenceSplitter) (e : exn) : run :=
  {| yielded := []; after := s; raised := Some e |}.

(** Sequencing: [k] runs on the state [r] left unless [r] raised. *)
Definition and_then (r : run) (k : SentenceSplitter -> run) : run :=
  match raised r with
  | Some _ => r
  | None =>
      let r' := k (after r) in
      {| yielded := yielded r ++ yielded r';
         after := after r';
         raised := raised r' |}
  end.

(** The merge pass of [stream]: sentences shorter than the minimum are carried
    in [temp_sentence] into the next one. *)
Fixpoint combine_sentences (min : Z) (temp_sentence : text)
         (sentences : list text) : list text :=
  match sentences with
  | [] => if nonempty temp_sentence then [strip temp_sentence] else []
  | sentence :: rest =>
      if (len sentence <? min)%Z then
        combine_sentences min (temp_sentence ++ sentence ++ str " ") rest
      else if nonempty temp_sentence then
        strip (temp_sentence ++ sentence) :: combine_sentences min [] rest
      else
        strip sentence :: combine_sentences min [] rest
  end.

Definition sum_len (l : list text) : Z :=
  fold_right (fun s acc => (len s + acc)%Z) 0%Z l.

(** [s[-1]] *)
Definition last_char (t : text) : result char :=
  match rev t with
  | c :: _ => Ok c
  | [] => Raise IndexError
  end.

(** [sentences[-1]] of a list known to be non-empty. *)
Definition last_sentence (l : list text) : text := last l [].

Section Splitter.

Variable rt : runtime.

Definition clean (o : options) (t : text) : text :=
  _clean_text (is_emoji rt) t (cleanup_text_links o) (cleanup_text_emojis o)
              true.

(** [SentenceSplitter.__init__].  [init_tokenizer] is called with [debug]
    in the position of [offline]. *)
Definition __init__ (g : globals) (o : options)
  : globals * list log_record * SentenceSplitter :=
  let g1 := set_current_tokenizer g (tokenizer o) in
  let '(g2, logs) :=
    init_tokenizer rt g1 (current_tokenizer g1) (language o) (debug o) in
  (g2, logs,
   {| config := adjust_flags o;
      input_buffer := [];
      buffer := [];
      is_first_sentence := true;
      word_count := 0;
      last_delimiter_position := -1 |}).

Definition add (s : SentenceSplitter) (chunk : text) : SentenceSplitter :=
  set_input_buffer s (input_buffer s ++ [chunk]).

(** The context window of [stream] for a buffer of length [n]. *)
Definition context_window_end_pos (o : options) (n : Z) : Z :=
  (n - context_size o - 1)%Z.
Definition context_window_start_pos (o : options) (n : Z) : Z :=
  let p := (context_window_end_pos o n - context_size_look_overhead o)%Z in
  if (p <? 0)%Z then 0%Z else p.

(** [len(sentences) > 2 or (last_delimiter_position >= 0 and start <=
    last_delimiter_position <= end)] *)
Definition commit_condition (o : options) (combined : list text)
           (n position : Z) : bool :=
  (2 <? Z.of_nat (length combined))%Z
  || ((0 <=? position)%Z
      && (context_window_start_pos o n <=? position)%Z
      && (position <=? context_window_end_pos o n)%Z).

(** The first-fragment branch of [stream]: yield the cleaned buffer and
    start over. *)
Definition quick_yield (s : SentenceSplitter) : run :=
  let o := config s in
  let s1 := set_word_count (set_buffer s []) 0 in
  let s2 := if quick_yield_every_fragment o then s1
            else set_is_first_sentence s1 false in
  {| yielded := [(QuickYield, clean o (buffer s))];
     after := s2;
     raised := None |}.

(** The rest of the loop body of [stream] once the first-fragment branch
    was not taken. *)
Definition analyse (g : globals) (s : SentenceSplitter) (c : char) : run :=
  let o := config s in
  if (len (buffer s) <=? minimum_sentence_length o + context_size o)%Z then
    done s
  else
    let s1 := if char_in c (full_sentence_delimiters o)
              then set_last_delimiter_position s (len (buffer s) - 1)
              else s in
    match _tokenize_sentences rt g (buffer s1) (tokenize_sentences o) with
    | Raise e => raising s1 e
    | Ok tokens =>
        let sentences :=
          combine_sentences (minimum_sentence_length o) [] tokens in
        if commit_condition o sentences (len (buffer s1))
                            (last_delimiter_position s1)
        then
          if (1 <? Z.of_nat (length sentences))%Z then
            let total_length_except_last := sum_len (removelast sentences) in
            if (minimum_sentence_length o <=? total_length_except_last)%Z
            then
              let s2 := set_word_count s1 0 in
              let s3 := if quick_yield_for_all_sentences o
                        then set_is_first_sentence s2 true else s2 in
              let ends_with_space := endswith_space (buffer s1) in
              let s4 := set_buffer s3
                          (last_sentence sentences
                           ++ (if ends_with_space then str " " else [])) in
              {| yielded := map (fun x => (Commit, clean o x))
                                (removelast sentences);
                 after := set_last_delimiter_position s4 (-1);
                 raised := None |}
            else done s1
          else done s1
        else done s1
    end.

(** The body of [for char in chunk] in [stream]. *)
Definition process_char (g : globals) (s : SentenceSplitter) (c : char)
  : run :=
  let o := config s in
  if (len (buffer s) =? 0)%Z && filter_first_non_alnum_characters o
     && negb (isalnum rt c)
  then done s
  else
    let s1 := set_buffer s (lstrip (buffer s ++ [c])) in
    let s2 := if isspace c || char_in c (sentence_fragment_delimiters o)
              then set_word_count s1 (word_count s1 + 1) else s1 in
    if is_first_sentence s2
       && (minimum_first_fragment_length o <? len (buffer s2))%Z
       && quick_yield_single_sentence_fragment o
    then
      match last_char (buffer s2) with
      | Raise e => raising s2 e
      | Ok l =>
          if char_in l (sentence_fragment_delimiters o)
             || (isspace c
                 && (force_first_fragment_after_words o <=? word_count s2)%Z)
          then quick_yield s2
          else analyse g s2 c
      end
    else analyse g s2 c.

(** [for char in chunk: ...] *)
Fixpoint feed (g : globals) (s : SentenceSplitter) (chunk : text) : run :=
  match chunk with
  | [] => done s
  | c :: rest => and_then (process_char g s c) (fun s' => feed g s' rest)
  end.

(** [while self.input_buffer: chunk = self.input_buffer.popleft(); ...] *)
Fixpoint stream_queue (g : globals) (s : SentenceSplitter)
         (queue : list text) : run :=
  match queue with
  | [] => done s
  | chunk :: rest =>
      and_then (feed g (set_input_buffer s rest) chunk)
               (fun s' => stream_queue g s' rest)
  end.

Definition stream (g : globals) (s : SentenceSplitter) : run :=
  stream_queue g s (input_buffer s).

(** The loop of [flush] over the sentences of the buffer. *)
Fixpoint flush_sentences (o : options) (sentence_buffer : text)
         (sentences : list text) : list emission :=
  match sentences with
  | [] =>
      if nonempty sentence_buffer
      then [(FlushRest, clean o sentence_buffer)] else []
  | sentence :: rest =>
      let sentence_buffer := sentence_buffer ++ sentence in
      if (len sentence_buffer <? minimum_sentence_length o)%Z then
        flush_sentences o (sentence_buffer ++ str " ") rest
      else
        (FlushFull, clean o sentence_buffer) :: flush_sentences o [] rest
  end.

Definition flush (g : globals) (s : SentenceSplitter) : run :=
  let o := config s in
  if nonempty (buffer s) then
    match _tokenize_sentences rt g (buffer s) (tokenize_sentences o) with
    | Raise e => raising s e
    | Ok sentences =>
        {| yielded := flush_sentences o [] sentences;
           after := s;
           raised := None |}
    end
  else done s.

End Splitter.

(** ** Entry points *)

(** An asynchronous fragment source, [__anext__] by [__anext__]: the await
    completes with a chunk, or genuinely suspends (it hands control to the
    event loop and is resumed later), or the source is over, or it raises. *)
Inductive async_source : Type :=
| SrcItem (chunk : text) (rest : async_source)
| SrcSuspend (rest : async_source)
| SrcStop
| SrcRaise (e : exn).

(** What driving an asynchronous generator shows, in order: a value it
    yields, or a suspension that reaches the driver. *)
Inductive event : Type :=
| Yield (sentence : emission)
| Suspend.

Record behaviour : Type := {
  events : list event;
  ending : option exn
}.

Definition yields_of (r : run) : list event := map Yield (yielded r).

Section EntryPoints.

Variable rt : runtime.

(** The body of [generate_sentences_async] after the splitter is built:
    [async for chunk in generator: add; for sentence in stream(): yield],
    then [for sentence in flush(): yield]. *)
Fixpoint drive (g : globals) (s : SentenceSplitter) (generator : async_source)
  : behaviour :=
  match generator with
  | SrcItem chunk rest =>
      let r := stream rt g (add s chunk) in
      match raised r with
      | Some e => {| events := yields_of r; ending := Some e |}
      | None =>
          let b := drive g (after r) rest in
          {| events := yields_of r ++ events b; ending := ending b |}
      end
  | SrcSuspend rest =>
      let b := drive g s rest in
      {| events := Suspend :: events b; ending := ending b |}
  | SrcStop =>
      let r := flush rt g s in
      {| events := yields_of r; ending := raised r |}
  | SrcRaise e => {| events := []; ending := Some e |}
  end.

Definition generate_sentences_async (g : globals) (generator : async_source)
           (o : options) : globals * list log_record * behaviour :=
  let '(g', logs, sentence_splitter) := __init__ rt g o in
  (g', logs, drive g' sentence_splitter generator).

(** The asynchronous generator consumed under an event loop
    ([async for sentence in generate_sentences_async(...)]): suspensions
    are resumed by the loop and the consumer sees the yielded values. *)
Fixpoint awaited (evs : list event) : list emission :=
  match evs with
  | [] => []
  | Yield v :: rest => v :: awaited rest
  | Suspend :: rest => awaited rest
  end.

Definition run_async (b : behaviour) : list emission * option exn :=
  (awaited (events b), ending b).

(** [_async_iter_to_sync] over [_await_sync]: each [__anext__] is driven
    one step; a value is passed on, a suspension raises [RuntimeError]. *)
Fixpoint _async_iter_to_sync_events (evs : list event) (ending : option exn)
  : list emission * option exn :=
  match evs with
  | [] => ([], ending)
  | Yield v :: rest =>
      let '(out, e) := _async_iter_to_sync_events rest ending in
      (v :: out, e)
  | Suspend :: _ => ([], Some (RuntimeError "failed to be synchronous"))
  end.

Definition _async_iter_to_sync (b : behaviour)
  : list emission * option exn :=
  _async_iter_to_sync_events (events b) (ending b).

(** [gen_wrap] of [_dowrap]: a plain iterable as an asynchronous source that
    never suspends. *)
Fixpoint gen_wrap (generator : list text) : async_source :=
  match generator with
  | [] => SrcStop
  | x :: rest => SrcItem x (gen_wrap rest)
  end.

(** [generate_sentences = _dowrap(generate_sentences_async)] *)
Definition generate_sentences (g : globals) (generator : list text)
           (o : options)
  : globals * list log_record * (list emission * option exn) :=
  let '(g', logs, b) := generate_sentences_async g (gen_wrap generator) o in
  (g', logs, _async_iter_to_sync b).

End EntryPoints.

(** The sentences of a run, as the caller receives them. *)
Definition sentences_of (l : list emission) : list text := map snd l.

(** ** A concrete runtime for closed examples *)

(** [str.isalnum] on ASCII. *)
Definition ascii_isalnum (c : char) : bool :=
  in_range 48%N 57%N c || in_range 65%N 90%N c || in_range 97%N 122%N c.

(** A custom [tokenize_sentences]: a sentence ends with each [.], [?] or
    [!]; sentences are stripped and empty ones dropped. *)
Definition is_terminator (c : char) : bool :=
  N.eqb c 46%N || N.eqb c 63%N || N.eqb c 33%N.

Definition keep_sentence (acc : text) : list text :=
  if nonempty (strip acc) then [strip acc] else [].

Fixpoint split_at_terminators (acc : text) (t : text) : list text :=
  match t with
  | [] => keep_sentence acc
  | c :: rest =>
      if is_terminator c
      then keep_sentence (acc ++ [c]) ++ split_at_terminators [] rest
      else split_at_terminators (acc ++ [c]) rest
  end.

Definition simple_tokenize : tokenize_fn :=
  fun t => Ok (split_at_terminators [] t).

(** A runtime in which NLTK is present and tokenizes like [simple_tokenize]
    and Stanza is not installed. *)
Definition test_runtime : runtime :=
  {| isalnum := ascii_isalnum;
     is_emoji := emoticons;
     nltk_download_ok := true;
     nltk_sent_tokenize := simple_tokenize;
     stanza_installed := false;
     stanza_Pipeline := fun _ _ => None |}.

(** Options for closed examples: the defaults, except for the minimum
    sentence length, the quick-yield switch with its word ceiling, link
    cleanup, and the tokenizer (by name, or a custom function). *)
Definition example_options (min : Z) (quick : bool) (words : Z) (links : bool)
           (name : string) (custom : option tokenize_fn) : options :=
  {| context_size := 12;
     context_size_look_overhead := 12;
     minimum_sentence_length := min;
     minimum_first_fragment_length := 10;
     quick_yield_single_sentence_fragment := quick;
     quick_yield_for_all_sentences := false;
     quick_yield_every_fragment := false;
     cleanup_text_links := links;
     cleanup_text_emojis := false;
     tokenize_sentences := custom;
     tokenizer := name;
     language := "en";
     log_characters := false;
     sentence_fragment_delimiters := default_fragment_delimiters;
     full_sentence_delimiters := default_full_delimiters;
     force_first_fragment_after_words := words;
     filter_first_non_alnum_characters := false;
     debug := false |}.

(** A splitter as [__init__] leaves it. *)
Definition new_splitter (rt : runtime) (o : options) : SentenceSplitter :=
  snd (__init__ rt module_globals o).

(** The defaults with the custom tokenizer [simple_tokenize]. *)
Definition simple_options : options :=
  example_options 10 false 30 false "nltk" (Some simple_tokenize).

(** A splitter that has read ["This is the first sentence. Then we co"]. *)
Definition mid_sentence : SentenceSplitter :=
  after (feed test_runtime module_globals
              (new_splitter test_runtime simple_options)
              (str "This is the first sentence. Then we co")).
(** * Specification vocabulary *)

Definition link_char (c : char) : bool :=
  is_alpha c || is_digit c || is_class3 c || is_class4 c.

(** The text starts with a link: a scheme and one more link character. *)
Definition link_start (u : text) : Prop :=
  exists pre c rest,
    (pre = str "http://" \/ pre = str "https://")
    /\ link_char c = true /\ u = pre ++ c :: rest.

(** No link starts anywhere in the text. *)
Definition linkfree (t : text) : Prop :=
  forall a b, t = a ++ b -> match_link b = None.


(** The object after the delimiter bookkeeping of [stream]: the position of
    the character just appended is recorded when it is a full-sentence
    delimiter. *)
Definition set_if_delimiter (s : SentenceSplitter) (c : char)
  : SentenceSplitter :=
  if char_in c (full_sentence_delimiters (config s))
  then set_last_delimiter_position s (len (buffer s) - 1)
  else s.

(** The object after the character [c] was appended to the buffer and
    counted. *)
Definition appended (s : SentenceSplitter) (c : char) : SentenceSplitter :=
  let s1 := set_buffer s (lstrip (buffer s ++ [c])) in
  if isspace c || char_in c (sentence_fragment_delimiters (config s))
  then set_word_count s1 (word_count s1 + 1) else s1.

(** The tokenizer names [init_tokenizer] knows. *)
Definition builtin_tokenizer (name : string) : bool :=
  String.eqb name "nltk" || String.eqb name "stanza".

(** The source never genuinely suspends. *)
Fixpoint never_suspends (generator : async_source) : bool :=
  match generator with
  | SrcItem _ rest => never_suspends rest
  | SrcSuspend _ => false
  | SrcStop => true
  | SrcRaise _ => true
  end.

(** The options with another [tokenize_sentences] function. *)
Definition with_tokenize_sentences (o : options) (f : option tokenize_fn)
  : options :=
  {| context_size := context_size o;
     context_size_look_overhead := context_size_look_overhead o;
     minimum_sentence_length := minimum_sentence_length o;
     minimum_first_fragment_length := minimum_first_fragment_length o;
     quick_yield_single_sentence_fragment :=
       quick_yield_single_sentence_fragment o;
     quick_yield_for_all_sentences := quick_yield_for_all_sentences o;
     quick_yield_every_fragment := quick_yield_every_fragment o;
     cleanup_text_links := cleanup_text_links o;
     cleanup_text_emojis := cleanup_text_emojis o;
     tokenize_sentences := f;
     tokenizer := tokenizer o;
     language := language o;
     log_characters := log_characters o;
     sentence_fragment_delimiters := sentence_fragment_delimiters o;
     full_sentence_delimiters := full_sentence_delimiters o;
     force_first_fragment_after_words := force_first_fragment_after_words o;
     filter_first_non_alnum_characters := filter_first_non_alnum_characters o;
     debug := debug o |}.

(** The object with other options, and a run seen on it. *)
Definition with_config (s : SentenceSplitter) (o : options)
  : SentenceSplitter :=
  {| config := o; input_buffer := input_buffer s; buffer := buffer s;
     is_first_sentence := is_first_sentence s; word_count := word_count s;
     last_delimiter_position := last_delimiter_position s |}.

Definition reconfigured (o : options) (r : run) : run :=
  {| yielded := yielded r;
     after := with_config (after r) o;
     raised := raised r |}.







(** The number of first-fragment yields among the emissions. *)
Definition is_quick_yield (e : emission) : bool :=
  match fst e with
  | QuickYield => true
  | _ => false
  end.

Definition count_quick_yields (l : list emission) : nat :=
  length (filter is_quick_yield l).




(** The chunks an asynchronous source delivers, in order. *)
Fixpoint chunks_of (generator : async_source) : list text :=
  match generator with
  | SrcItem chunk rest => chunk :: chunks_of rest
  | SrcSuspend rest => chunks_of rest
  | SrcStop => []
  | SrcRaise _ => []
  end.

(** The source ends by stopping, not by raising. *)
Fixpoint stops (generator : async_source) : bool :=
  match generator with
  | SrcItem _ rest => stops rest
  | SrcSuspend rest => stops rest
  | SrcStop => true
  | SrcRaise _ => false
  end.

(** Two states of the module globals that select the same tokenizer. *)
Definition same_tokenizer (g g' : globals) : Prop :=
  current_tokenizer g = current_tokenizer g' /\ nlp g = nlp g'.



(** A text with its whitespace removed: texts are compared up to whitespace
    through it. *)
Definition squash (t : text) : text := filter (fun c => negb (isspace c)) t.


(** The number of whitespace characters of a text. *)
Definition count_spaces (t : text) : Z :=
  Z.of_nat (length (filter isspace t)).

(** No character of the text is a sentence-fragment delimiter. *)
Definition no_soft_delimiter (o : options) (t : text) : Prop :=
  forall c, In c t -> char_in c (sentence_fragment_delimiters o) = false.

(** [flush] after a run of [stream], unless that run raised. *)
Definition then_flush (rt : runtime) (g : globals) (r : run)
  : list emission * option exn :=
  match raised r with
  | Some e => (yielded r, Some e)
  | None =>
      (yielded r ++ yielded (flush rt g (after r)),
       raised (flush rt g (after r)))
  end.

(** A run of the splitter over one stream of characters, then [flush]: what
    [generate_sentences] comes to on a plain iterable. *)
Definition feed_then_flush (rt : runtime) (g : globals) (s : SentenceSplitter)
           (characters : text) : list emission * option exn :=
  then_flush rt g (feed rt g s characters).

(** [a] is [b] with some characters left out. *)
Inductive subtext : text -> text -> Prop :=
| subtext_nil : subtext [] []
| subtext_keep (c : char) (a b : text) :
    subtext a b -> subtext (c :: a) (c :: b)
| subtext_skip (c : char) (a b : text) :
    subtext a b -> subtext a (c :: b).

(** The splitter has read [seen] and yielded nothing yet: the buffer is
    [seen] without its leading whitespace and every whitespace character was
    counted. *)
Definition quiet (o : options) (s : SentenceSplitter) (seen : text) : Prop :=
  config s = o /\ buffer s = lstrip seen
  /\ word_count s = count_spaces seen /\ is_first_sentence s = true.

(** A run seen with the queue of its final object replaced by [q]. *)
Definition with_queue (q : list text) (r : run) : run :=
  {| yielded := yielded r;
     after := set_input_buffer (after r) q;
     raised := raised r |}.

(** [for chunk in chunks: splitter.add(chunk)] *)
Definition add_all (s : SentenceSplitter) (chunks : list text)
  : SentenceSplitter :=
  fold_left add chunks s.

(** The module globals after a splitter was built for the unknown tokenizer
    name ["spacy"]. *)
Definition unknown_tokenizer_globals : globals :=
  fst (fst (__init__ test_runtime module_globals
                     (example_options 10 false 30 false "spacy" None))).

(** A text without leading or trailing whitespace (the empty text
    included). *)
Definition stripped (t : text) : Prop := lstrip t = t /\ rstrip t = t.

(** Defaults with quick yield on and a negative first-fragment minimum. *)
Definition negative_first_options : options :=
  {| context_size := 12;
     context_size_look_overhead := 12;
     minimum_sentence_length := 10;
     minimum_first_fragment_length := -1;
     quick_yield_single_sentence_fragment := true;
     quick_yield_for_all_sentences := false;
     quick_yield_every_fragment := false;
     cleanup_text_links := false;
     cleanup_text_emojis := false;
     tokenize_sentences := Some simple_tokenize;
     tokenizer := "nltk";
     language := "en";
     log_characters := false;
     sentence_fragment_delimiters := default_fragment_delimiters;
     full_sentence_delimiters := default_full_delimiters;
     force_first_fragment_after_words := 30;
     filter_first_non_alnum_characters := false;
     debug := false |}.

(** Defaults with [quick_yield_every_fragment] and [simple_tokenize]. *)
Definition every_fragment_options : options :=
  {| context_size := 12;
     context_size_look_overhead := 12;
     minimum_sentence_length := 10;
     minimum_first_fragment_length := 10;
     quick_yield_single_sentence_fragment := false;
     quick_yield_for_all_sentences := false;
     quick_yield_every_fragment := true;
     cleanup_text_links := false;
     cleanup_text_emojis := false;
     tokenize_sentences := Some simple_tokenize;
     tokenizer := "nltk";
     language := "en";
     log_characters := false;
     sentence_fragment_delimiters := default_fragment_delimiters;
     full_sentence_delimiters := default_full_delimiters;
     force_first_fragment_after_words := 30;
     filter_first_non_alnum_characters := false;
     debug := false |}.

(** A custom tokenizer that returns the whole text as one sentence. *)
Definition whole_text : tokenize_fn := fun t => Ok [t].

(** A runtime in which Stanza has models for English and German only: the
    English pipeline splits like [simple_tokenize], the German one returns
    the text as one sentence. *)
Definition stanza_runtime : runtime :=
  {| isalnum := ascii_isalnum;
     is_emoji := emoticons;
     nltk_download_ok := true;
     nltk_sent_tokenize := simple_tokenize;
     stanza_installed := true;
     stanza_Pipeline :=
       fun language _ =>
         if String.eqb language "en" then Some simple_tokenize
         else if String.eqb language "de" then Some whole_text
         else None |}.

(** The defaults with the tokenizer ["stanza"] for a language. *)
Definition stanza_options (language : string) : options :=
  {| context_size := 12;
     context_size_look_overhead := 12;
     minimum_sentence_length := 10;
     minimum_first_fragment_length := 10;
     quick_yield_single_sentence_fragment := false;
     quick_yield_for_all_sentences := false;
     quick_yield_every_fragment := false;
     cleanup_text_links := false;
     cleanup_text_emojis := false;
     tokenize_sentences := None;
     tokenizer := "stanza";
     language := language;
     log_characters := false;
     sentence_fragment_delimiters := default_fragment_delimiters;
     full_sentence_delimiters := default_full_delimiters;
     force_first_fragment_after_words := 30;
     filter_first_non_alnum_characters := false;
     debug := false |}.

(** An asynchronous source with its suspensions taken out. *)
Fixpoint without_suspensions (generator : async_source) : async_source :=
  match generator with
  | SrcItem chunk rest => SrcItem chunk (without_suspensions rest)
  | SrcSuspend rest => without_suspensions rest
  | SrcStop => SrcStop
  | SrcRaise e => SrcRaise e
  end.

(** A source that delivers [chunks] and then raises [e] instead of
    stopping. *)
Fixpoint raising_source (chunks : list text) (e : exn) : async_source :=
  match chunks with
  | [] => SrcRaise e
  | chunk :: rest => SrcItem chunk (raising_source rest e)
  end.
(** * Properties of the sanitizer *)

Lemma link_unit_char (c : char) (r : text) :
  link_unit (c :: r) = if link_char c then Some r else None.
Proof.
  unfold link_unit. fold (link_char c).
  destruct (link_char c) eqn:E; [reflexivity|].
  destruct r as [|h1 [|h2 r']]; try reflexivity.
  destruct (char_eqb c 37%N) eqn:E37; [|reflexivity].
  apply N.eqb_eq in E37. subst c. discriminate E.
Qed.

Lemma link_units_drop (fuel : nat) (t : text) :
  length t <= fuel -> link_units fuel t = drop_while link_char t.
Proof.
  revert t. induction fuel as [|f IH]; intros [|c r] H; simpl in *;
    try reflexivity; try lia.
  fold (link_char c). destruct (link_char c) eqn:E.
  - simpl. apply IH. lia.
  - destruct r as [|h1 [|h2 r']]; try reflexivity.
    destruct (char_eqb c 37%N) eqn:E37; [|reflexivity].
    apply N.eqb_eq in E37. subst c. discriminate E.
Qed.

Lemma strip_prefix_Some (p t r : text) :
  strip_prefix p t = Some r <-> t = p ++ r.
Proof.
  revert t. induction p as [|a p IH]; intros t; simpl.
  - split; congruence.
  - destruct t as [|b t].
    + split; discriminate.
    + unfold char_eqb. destruct (N.eqb_spec a b) as [->|Hne].
      * rewrite IH. split; congruence.
      * split; [discriminate | congruence].
Qed.

Lemma match_link_Some (u x : text) :
  match_link u = Some x ->
  exists pre c rest,
    (pre = str "http://" \/ pre = str "https://")
    /\ link_char c = true /\ u = pre ++ c :: rest
    /\ x = drop_while link_char rest.
Proof.
  unfold match_link.
  destruct (strip_prefix (str "http") u) as [t1|] eqn:E1; [|discriminate].
  apply strip_prefix_Some in E1.
  destruct (strip_prefix (str "://") (optional_char 115%N t1)) as [t3|] eqn:E2;
    [|discriminate].
  apply strip_prefix_Some in E2.
  destruct t3 as [|c t4]; [discriminate|].
  rewrite link_unit_char. destruct (link_char c) eqn:Ec; [|discriminate].
  intros [= <-]. rewrite link_units_drop by lia.
  destruct t1 as [|a t1']; [discriminate E2|].
  simpl in E2. unfold char_eqb in E2.
  destruct (N.eqb_spec a 115%N) as [->|Hne].
  - exists (str "https://"), c, t4. subst. auto.
  - exists (str "http://"), c, t4. subst u. rewrite E2. auto.
Qed.

Lemma link_start_match (u : text) : link_start u -> match_link u <> None.
Proof.
  intros (pre & c & rest & [-> | ->] & Hc & ->);
    unfold match_link; cbn -[link_unit link_units];
    rewrite link_unit_char, Hc; discriminate.
Qed.

Lemma match_link_start (u : text) : match_link u <> None -> link_start u.
Proof.
  destruct (match_link u) as [x|] eqn:E; [|congruence]. intros _.
  destruct (match_link_Some _ _ E) as (pre & c & rest & H1 & H2 & H3 & _).
  exists pre, c, rest. auto.
Qed.

Lemma link_start_head (c : char) (r : text) :
  link_start (c :: r) -> link_char c = true.
Proof.
  intros (pre & c' & rest & [-> | ->] & _ & H); injection H as -> _;
    reflexivity.
Qed.

Lemma link_start_app (u v : text) : link_start u -> link_start (u ++ v).
Proof.
  intros (pre & c & rest & Hp & Hc & ->).
  exists pre, c, (rest ++ v). rewrite <- app_assoc. auto.
Qed.

Lemma take_while_app_all (p : char -> bool) (a b : text) :
  forallb p a = true -> take_while p (a ++ b) = a ++ take_while p b.
Proof.
  induction a as [|x a IH]; simpl; [reflexivity|].
  intros H. apply andb_prop in H as [-> H]. now rewrite IH.
Qed.

Lemma link_start_run (u v : text) :
  link_start u -> link_start (take_while link_char u ++ v).
Proof.
  intros (pre & c & rest & Hp & Hc & ->).
  exists pre, c, (take_while link_char rest ++ v). repeat split; auto.
  rewrite take_while_app_all by (destruct Hp as [-> | ->]; reflexivity).
  simpl. rewrite Hc. rewrite <- app_assoc. reflexivity.
Qed.

Lemma linkfree_cons (c : char) (t : text) :
  match_link (c :: t) = None -> linkfree t -> linkfree (c :: t).
Proof.
  intros Hc Ht [|x a] b E; simpl in E.
  - now subst b.
  - injection E as _ E. eapply Ht, E.
Qed.

Lemma linkfree_tail (c : char) (t : text) : linkfree (c :: t) -> linkfree t.
Proof. intros H a b E. apply (H (c :: a) b). now rewrite E. Qed.

Lemma linkfree_suffix (a b : text) : linkfree (a ++ b) -> linkfree b.
Proof. induction a; simpl; eauto using linkfree_tail. Qed.

Lemma linkfree_prefix (a b : text) : linkfree (a ++ b) -> linkfree a.
Proof.
  intros H x y E. destruct (match_link y) eqn:Ey; [|reflexivity].
  assert (Hs : link_start (y ++ b))
    by (apply link_start_app, match_link_start; congruence).
  apply link_start_match in Hs. exfalso. apply Hs.
  apply (H x (y ++ b)). now rewrite E, <- app_assoc.
Qed.

(** After a match the text is over or goes on with a character that no link
    contains. *)
Lemma drop_while_stop (p : char -> bool) (t : text) :
  take_while p (drop_while p t) = [].
Proof.
  induction t as [|c r IH]; simpl; [reflexivity|].
  destruct (p c) eqn:E; [exact IH | simpl; now rewrite E].
Qed.

Lemma match_link_shorter (t x : text) :
  match_link t = Some x -> length x < length t.
Proof.
  intros H. destruct (match_link_Some _ _ H) as (pre & c & rest & _ & _ & -> & ->).
  rewrite length_app. simpl.
  assert (length (drop_while link_char rest) <= length rest).
  { clear. induction rest as [|a r IH]; simpl; [lia|].
    destruct (link_char a); simpl; lia. }
  lia.
Qed.

Lemma sub_links_nil (fuel : nat) : sub_links fuel [] = [].
Proof. destruct fuel; reflexivity. Qed.

(** The run of link characters at the head of the output is a prefix of the
    input: removals never join two runs. *)
Lemma sub_links_run (fuel : nat) (t : text) :
  length t <= fuel ->
  exists r, t = take_while link_char (sub_links fuel t) ++ r.
Proof.
  revert t. induction fuel as [|f IH]; intros t H.
  - destruct t; simpl in H; [|lia]. now exists [].
  - destruct t as [|c r]; [now exists []|].
    simpl. destruct (match_link (c :: r)) as [x|] eqn:E.
    + exists (c :: r).
      destruct (match_link_Some _ _ E) as (pre & c' & rest & _ & _ & _ & ->).
      pose proof (drop_while_stop link_char rest) as Hs.
      destruct (drop_while link_char rest) as [|d y] eqn:Ed.
      * now rewrite sub_links_nil.
      * simpl in Hs. destruct (link_char d) eqn:Hd; [discriminate|].
        assert (Hm : match_link (d :: y) = None).
        { destruct (match_link (d :: y)) eqn:Em; [|reflexivity].
          assert (Hl : link_start (d :: y))
            by (apply match_link_start; congruence).
          apply link_start_head in Hl. congruence. }
        destruct f as [|f'].
        -- simpl. now rewrite Hd.
        -- simpl sub_links. rewrite Hm. simpl. now rewrite Hd.
    + simpl. destruct (link_char c); [|now exists (c :: r)].
      destruct (IH r) as [r' Hr']; [simpl in H; lia|].
      exists r'. simpl. now rewrite <- Hr'.
Qed.

Lemma sub_links_linkfree (fuel : nat) (t : text) :
  length t <= fuel -> linkfree (sub_links fuel t).
Proof.
  revert t. induction fuel as [|f IH]; intros t H.
  - destruct t; simpl in H; [|lia]. intros [|] b E; [|discriminate].
    simpl in E. now subst b.
  - destruct t as [|c r].
    + intros [|] b E; [|discriminate]. simpl in E. now subst b.
    + simpl. destruct (match_link (c :: r)) as [x|] eqn:E.
      * apply IH. apply match_link_shorter in E. simpl in *. lia.
      * apply linkfree_cons; [|apply IH; simpl in H; lia].
        destruct (match_link (c :: sub_links f r)) eqn:Em; [|reflexivity].
        exfalso.
        assert (Hl : link_start (c :: sub_links f r))
          by (apply match_link_start; congruence).
        pose proof (link_start_head _ _ Hl) as Hc.
        destruct (sub_links_run f r) as [r' Hr']; [simpl in H; lia|].
        apply (link_start_run _ r') in Hl. simpl in Hl. rewrite Hc in Hl.
        simpl in Hl. rewrite <- Hr' in Hl.
        apply link_start_match in Hl. congruence.
Qed.

Lemma sub_links_fixed (fuel : nat) (t : text) :
  linkfree t -> sub_links fuel t = t.
Proof.
  revert t. induction fuel as [|f IH]; intros t H; [reflexivity|].
  destruct t as [|c r]; [reflexivity|]. simpl.
  rewrite (H [] (c :: r) eq_refl). f_equal. apply IH.
  eapply linkfree_tail, H.
Qed.

Lemma remove_links_linkfree (t : text) : linkfree (_remove_links t).
Proof. apply sub_links_linkfree. lia. Qed.

Lemma remove_links_fixed (t : text) : linkfree t -> _remove_links t = t.
Proof. apply sub_links_fixed. Qed.

(** [strip] keeps a contiguous part of the text. *)
Lemma drop_while_suffix (p : char -> bool) (t : text) :
  exists a, t = a ++ drop_while p t.
Proof.
  induction t as [|c r [a IH]]; simpl; [now exists []|].
  destruct (p c); [|now exists []].
  exists (c :: a). simpl. now rewrite <- IH.
Qed.

Lemma rstrip_prefix (t : text) : exists b, t = rstrip t ++ b.
Proof.
  unfold rstrip. destruct (drop_while_suffix isspace (rev t)) as [a H].
  exists (rev a). rewrite <- rev_app_distr, <- H. now rewrite rev_involutive.
Qed.

Lemma strip_infix (t : text) : exists a b, t = a ++ strip t ++ b.
Proof.
  unfold strip, lstrip. destruct (drop_while_suffix isspace t) as [a Ha].
  destruct (rstrip_prefix (drop_while isspace t)) as [b Hb].
  exists a, b. now rewrite <- Hb.
Qed.

Lemma linkfree_strip (t : text) : linkfree t -> linkfree (strip t).
Proof.
  intros H. destruct (strip_infix t) as (a & b & E). rewrite E in H.
  eapply linkfree_prefix, linkfree_suffix, H.
Qed.

Lemma drop_while_idem (p : char -> bool) (t : text) :
  drop_while p (drop_while p t) = drop_while p t.
Proof.
  induction t as [|c r IH]; simpl; [reflexivity|].
  destruct (p c) eqn:E; [exact IH | simpl; now rewrite E].
Qed.

Lemma drop_while_snoc (p : char -> bool) (t : text) (c : char) :
  p c = false -> drop_while p (t ++ [c]) = drop_while p t ++ [c].
Proof.
  intros Hc. induction t as [|x r IH]; simpl; [now rewrite Hc|].
  destruct (p x); [exact IH | reflexivity].
Qed.

Lemma rstrip_cons (c : char) (t : text) :
  isspace c = false -> rstrip (c :: t) = c :: rstrip t.
Proof.
  intros H. unfold rstrip. simpl. rewrite drop_while_snoc by exact H.
  now rewrite rev_app_distr.
Qed.

Lemma rstrip_idem (t : text) : rstrip (rstrip t) = rstrip t.
Proof. unfold rstrip. now rewrite rev_involutive, drop_while_idem. Qed.

Lemma lstrip_rstrip_lstrip (t : text) :
  lstrip (rstrip (lstrip t)) = rstrip (lstrip t).
Proof.
  unfold lstrip. pose proof (drop_while_stop isspace t) as Hs.
  destruct (drop_while isspace t) as [|c r]; [reflexivity|].
  simpl in Hs. destruct (isspace c) eqn:E; [discriminate|].
  rewrite rstrip_cons by exact E. simpl. now rewrite E.
Qed.

Lemma strip_idem (t : text) : strip (strip t) = strip t.
Proof.
  unfold strip at 1. unfold strip.
  now rewrite lstrip_rstrip_lstrip, rstrip_idem.
Qed.

Section SanitizerFacts.

Variable is_emoji : char -> bool.

Lemma remove_links_idem (t : text) :
  _remove_links (_remove_links t) = _remove_links t.
Proof. apply remove_links_fixed, remove_links_linkfree. Qed.

Lemma remove_links_strip (t : text) :
  _remove_links (strip (_remove_links t)) = strip (_remove_links t).
Proof. apply remove_links_fixed, linkfree_strip, remove_links_linkfree. Qed.

(** C6 (amended): with emoji removal off, [_clean_text] is idempotent for
    every text, with link removal on or off and for every setting of
    [strip_text]; being a function, it has a value on every input.  With
    emoji removal on nothing is claimed: [emoji.replace_emoji] works on
    sequences of code points, which the per-character table of
    [_remove_emojis] does not describe, and a second pass can then remove
    more than the first. *)
Theorem clean_text_idempotent (x : text) (links emojis strip_text : bool) :
  emojis = false ->
  _clean_text is_emoji
    (_clean_text is_emoji x links emojis strip_text) links emojis strip_text
  = _clean_text is_emoji x links emojis strip_text.
Proof.
  intros ->. unfold _clean_text.
  destruct links, strip_text; simpl; try reflexivity.
  - now rewrite remove_links_strip, strip_idem.
  - apply remove_links_idem.
  - apply strip_idem.
Qed.

End SanitizerFacts.

Lemma clean_text_idempotent_witness :
  _clean_text emoticons
    (_clean_text emoticons (str "  Check http://example.com now. ")
       true false true) true false true
  = _clean_text emoticons (str "  Check http://example.com now. ")
      true false true.
Proof. apply (clean_text_idempotent emoticons); reflexivity. Defined.

(** C6 (as stated) fails with emoji removal on: deleting an emoji can join
    the two halves of a link that link removal, which ran first, did not
    see. *)
Lemma clean_text_not_idempotent :
  ~ (forall (x : text) (links emojis : bool),
        _clean_text emoticons (_clean_text emoticons x links emojis true)
          links emojis true
        = _clean_text emoticons x links emojis true).
Proof.
  intros H.
  specialize (H (str "http" ++ [128512%N] ++ str "://a") true true).
  vm_compute in H. discriminate H.
Qed.

(** * Properties of the splitter *)

(** ** Frame facts: what the methods leave alone *)

Section SplitterFacts.

Variable rt : runtime.

Lemma and_then_done (r : run) :
  and_then r done = r.
Proof.
  unfold and_then. destruct r as [y a [e|]]; simpl; [reflexivity|].
  now rewrite app_nil_r.
Qed.

Lemma analyse_config (g : globals) (s : SentenceSplitter) (c : char) :
  config (after (analyse rt g s c)) = config s.
Proof.
  unfold analyse.
  repeat match goal with
         | |- context [if ?b then _ else _] => destruct b
         | |- context [match ?x with Ok _ => _ | Raise _ => _ end] =>
             destruct x
         end; reflexivity.
Qed.

Lemma process_char_config (g : globals) (s : SentenceSplitter) (c : char) :
  config (after (process_char rt g s c)) = config s.
Proof.
  unfold process_char, quick_yield.
  repeat match goal with
         | |- context [analyse rt g ?x c] =>
             rewrite (analyse_config g x c)
         | |- context [if ?b then _ else _] => destruct b
         | |- context [match ?x with Ok _ => _ | Raise _ => _ end] =>
             destruct x
         end; reflexivity.
Qed.

Lemma analyse_input_buffer (g : globals) (s : SentenceSplitter) (c : char) :
  input_buffer (after (analyse rt g s c)) = input_buffer s.
Proof.
  unfold analyse.
  repeat match goal with
         | |- context [if ?b then _ else _] => destruct b
         | |- context [match ?x with Ok _ => _ | Raise _ => _ end] =>
             destruct x
         end; reflexivity.
Qed.

Lemma and_then_config (r : run) (k : SentenceSplitter -> run) :
  (forall s, config (after (k s)) = config s) ->
  config (after (and_then r k)) = config (after r).
Proof.
  intros H. unfold and_then. destruct (raised r); simpl; auto.
Qed.

Lemma feed_config (g : globals) (chunk : text) (s : SentenceSplitter) :
  config (after (feed rt g s chunk)) = config s.
Proof.
  revert s. induction chunk as [|c rest IH]; intros s; simpl;
    [reflexivity|].
  rewrite and_then_config by apply IH. apply process_char_config.
Qed.

Lemma stream_queue_config (g : globals) (queue : list text)
      (s : SentenceSplitter) :
  config (after (stream_queue rt g s queue)) = config s.
Proof.
  revert s. induction queue as [|chunk rest IH]; intros s; simpl;
    [reflexivity|].
  rewrite and_then_config by apply IH. now rewrite feed_config.
Qed.

(** The attributes copied by [__init__] are never assigned again. *)
Lemma stream_config (g : globals) (s : SentenceSplitter) :
  config (after (stream rt g s)) = config s.
Proof. apply stream_queue_config. Qed.

End SplitterFacts.

(** ** The commit decision *)

Section CommitDecision.

Variable rt : runtime.

Lemma window_start_max (o : options) (n : Z) :
  context_window_start_pos o n
  = Z.max 0 (context_window_end_pos o n - context_size_look_overhead o).
Proof.
  unfold context_window_start_pos.
  destruct (Z.ltb_spec
              (context_window_end_pos o n - context_size_look_overhead o) 0);
    lia.
Qed.

Lemma commit_condition_true (o : options) (combined : list text)
      (n position : Z) :
  commit_condition o combined n position = true ->
  (2 < length combined)%nat
  \/ (0 <= position
      /\ Z.max 0 (n - context_size o - 1 - context_size_look_overhead o)
         <= position <= n - context_size o - 1)%Z.
Proof.
  unfold commit_condition. rewrite window_start_max.
  unfold context_window_end_pos. intros H.
  apply orb_prop in H as [H | H].
  - left. apply Z.ltb_lt in H. lia.
  - right. apply andb_prop in H as [H H3]. apply andb_prop in H as [H1 H2].
    apply Z.leb_le in H1, H2, H3. lia.
Qed.

(** What [analyse] does, by cases. *)
Lemma analyse_cases (g : globals) (s : SentenceSplitter) (c : char) :
  let o := config s in
  let p := if char_in c (full_sentence_delimiters o)
           then (len (buffer s) - 1)%Z else last_delimiter_position s in
  ((len (buffer s) <= minimum_sentence_length o + context_size o)%Z
   /\ analyse rt g s c = done s)
  \/ ((minimum_sentence_length o + context_size o < len (buffer s))%Z
      /\ ((exists e,
              _tokenize_sentences rt g (buffer s) (tokenize_sentences o)
              = Raise e
              /\ analyse rt g s c
                 = raising (set_if_delimiter s c) e)
          \/ exists tokens,
              _tokenize_sentences rt g (buffer s) (tokenize_sentences o)
              = Ok tokens
              /\ let merged :=
                   combine_sentences (minimum_sentence_length o) [] tokens in
                 analyse rt g s c = done (set_if_delimiter s c)
                 \/ (commit_condition o merged (len (buffer s)) p = true
                     /\ (1 < length merged)%nat
                     /\ (minimum_sentence_length o
                         <= sum_len (removelast merged))%Z
                     /\ yielded (analyse rt g s c)
                        = map (fun x => (Commit, clean rt o x))
                              (removelast merged)
                     /\ raised (analyse rt g s c) = None
                     /\ buffer (after (analyse rt g s c))
                        = last_sentence merged
                          ++ (if endswith_space (buffer s) then str " "
                              else [])
                     /\ word_count (after (analyse rt g s c)) = 0%Z
                     /\ last_delimiter_position (after (analyse rt g s c))
                        = (-1)%Z))).
Proof.
  intros o p. unfold analyse. fold o.
  destruct (Z.leb_spec (len (buffer s))
                       (minimum_sentence_length o + context_size o));
    [left; auto | right; split; [assumption|]].
  assert (Hb : forall b : bool,
             buffer (if b then set_last_delimiter_position s
                                 (len (buffer s) - 1) else s) = buffer s)
    by (intros []; reflexivity).
  assert (Hp : last_delimiter_position
                 (if char_in c (full_sentence_delimiters o)
                  then set_last_delimiter_position s (len (buffer s) - 1)
                  else s) = p)
    by (unfold p; destruct (char_in c (full_sentence_delimiters o));
        reflexivity).
  unfold set_if_delimiter. fold o. rewrite Hb, Hp.
  destruct (_tokenize_sentences rt g (buffer s) (tokenize_sentences o))
    as [tokens|e]; [right; exists tokens | left; exists e; auto].
  split; [reflexivity|]. cbv zeta.
  destruct (commit_condition o _ (len (buffer s)) p) eqn:Hc; [|now left].
  destruct (Z.ltb_spec 1 (Z.of_nat (length
             (combine_sentences (minimum_sentence_length o) [] tokens))));
    [|now left].
  destruct (Z.leb_spec (minimum_sentence_length o)
             (sum_len (removelast
                (combine_sentences (minimum_sentence_length o) [] tokens))));
    [|now left].
  right. simpl. repeat split; auto; try lia.
  destruct (quick_yield_for_all_sentences o); reflexivity.
Qed.

End CommitDecision.

Section StepCases.

Variable rt : runtime.

Lemma appended_buffer (s : SentenceSplitter) (c : char) :
  buffer (appended s c) = lstrip (buffer s ++ [c]).
Proof. unfold appended. now destruct (_ || _). Qed.

Lemma appended_config (s : SentenceSplitter) (c : char) :
  config (appended s c) = config s.
Proof. unfold appended. now destruct (_ || _). Qed.

Lemma appended_position (s : SentenceSplitter) (c : char) :
  last_delimiter_position (appended s c) = last_delimiter_position s.
Proof. unfold appended. now destruct (_ || _). Qed.

Lemma appended_first (s : SentenceSplitter) (c : char) :
  is_first_sentence (appended s c) = is_first_sentence s.
Proof. unfold appended. now destruct (_ || _). Qed.

Lemma appended_word_count (s : SentenceSplitter) (c : char) :
  word_count (appended s c)
  = if isspace c || char_in c (sentence_fragment_delimiters (config s))
    then (word_count s + 1)%Z else word_count s.
Proof. unfold appended. now destruct (_ || _). Qed.

(** The loop body of [stream], by cases: the character is filtered out, or
    it is appended and then the first-fragment branch raises, yields, or
    hands over to the analysis. *)
Lemma process_char_cases (g : globals) (s : SentenceSplitter) (c : char) :
  let o := config s in
  let s2 := appended s c in
  (buffer s = [] /\ filter_first_non_alnum_characters o = true
   /\ isalnum rt c = false /\ process_char rt g s c = done s)
  \/ (is_first_sentence s = true
      /\ (minimum_first_fragment_length o < len (buffer s2))%Z
      /\ quick_yield_single_sentence_fragment o = true
      /\ ((buffer s2 = [] /\ process_char rt g s c = raising s2 IndexError)
          \/ (exists l, last_char (buffer s2) = Ok l
              /\ (char_in l (sentence_fragment_delimiters o) = true
                  \/ (isspace c = true
                      /\ (force_first_fragment_after_words o
                          <= word_count s2)%Z))
              /\ process_char rt g s c = quick_yield rt s2)))
  \/ process_char rt g s c = analyse rt g s2 c.
Proof.
  intros o s2. unfold process_char. fold o.
  destruct (((len (buffer s) =? 0)%Z && filter_first_non_alnum_characters o
             && negb (isalnum rt c))) eqn:Hf.
  - left. apply andb_prop in Hf as [Hf H3]. apply andb_prop in Hf as [H1 H2].
    apply Z.eqb_eq in H1. apply negb_true_iff in H3.
    unfold len in H1. destruct (buffer s); [auto | discriminate].
  - right. change (if isspace c || char_in c (sentence_fragment_delimiters o)
                   then set_word_count
                          (set_buffer s (lstrip (buffer s ++ [c])))
                          (word_count
                             (set_buffer s (lstrip (buffer s ++ [c]))) + 1)
                   else set_buffer s (lstrip (buffer s ++ [c])))
      with s2.
    destruct (is_first_sentence s2
              && (minimum_first_fragment_length o <? len (buffer s2))%Z
              && quick_yield_single_sentence_fragment o) eqn:Hq;
      [|now right].
    apply andb_prop in Hq as [Hq H3]. apply andb_prop in Hq as [H1 H2].
    apply Z.ltb_lt in H2. unfold s2 in H1. rewrite appended_first in H1.
    unfold last_char. destruct (rev (buffer s2)) as [|l r] eqn:Hr.
    + left. repeat split; auto. left. split; [|reflexivity].
      apply (f_equal (@rev char)) in Hr. now rewrite rev_involutive in Hr.
    + destruct (char_in l (sentence_fragment_delimiters o)
                || isspace c
                   && (force_first_fragment_after_words o
                       <=? word_count s2)%Z) eqn:Hy; [|now right].
      left. repeat split; auto. right. exists l. repeat split; auto.
      apply orb_prop in Hy as [Hy | Hy]; [now left | right].
      apply andb_prop in Hy as [Hy1 Hy2]. apply Z.leb_le in Hy2. auto.
Qed.

(** The loop body of [stream] with the appended object named. *)
Lemma process_char_appended (g : globals) (s : SentenceSplitter) (c : char) :
  process_char rt g s c
  = let o := config s in
    let s2 := appended s c in
    if (len (buffer s) =? 0)%Z && filter_first_non_alnum_characters o
       && negb (isalnum rt c)
    then done s
    else if is_first_sentence s2
            && (minimum_first_fragment_length o <? len (buffer s2))%Z
            && quick_yield_single_sentence_fragment o
         then match last_char (buffer s2) with
              | Raise e => raising s2 e
              | Ok l =>
                  if char_in l (sentence_fragment_delimiters o)
                     || (isspace c
                         && (force_first_fragment_after_words o
                             <=? word_count s2)%Z)
                  then quick_yield rt s2
                  else analyse rt g s2 c
              end
         else analyse rt g s2 c.
Proof. reflexivity. Qed.

Lemma appended_with_tokenizer (s : SentenceSplitter) (c : char)
      (f : option tokenize_fn) :
  appended (with_config s (with_tokenize_sentences (config s) f)) c
  = with_config (appended s c) (with_tokenize_sentences (config s) f).
Proof.
  unfold appended.
  cbn [config buffer with_config with_tokenize_sentences
       sentence_fragment_delimiters].
  destruct (isspace c || char_in c (sentence_fragment_delimiters (config s)));
    reflexivity.
Qed.

(** While the buffer is no longer than [minimum_sentence_length +
    context_size], the loop body is the same whatever the tokenizer. *)
Lemma process_char_short (g g' : globals) (s : SentenceSplitter) (c : char)
      (f : option tokenize_fn) :
  (len (lstrip (buffer s ++ [c]))
   <= minimum_sentence_length (config s) + context_size (config s))%Z ->
  process_char rt g' (with_config s (with_tokenize_sentences (config s) f)) c
  = reconfigured (with_tokenize_sentences (config s) f)
                 (process_char rt g s c).
Proof.
  intros Hlen. rewrite !process_char_appended. cbv zeta.
  rewrite appended_with_tokenizer.
  set (o' := with_tokenize_sentences (config s) f).
  set (s2 := appended s c).
  assert (Hb : buffer s2 = lstrip (buffer s ++ [c]))
    by apply appended_buffer.
  assert (Hc : config s2 = config s) by apply appended_config.
  assert (E1 : analyse rt g s2 c = done s2).
  { unfold analyse. rewrite Hc, Hb.
    destruct (Z.leb_spec (len (lstrip (buffer s ++ [c])))
                (minimum_sentence_length (config s)
                 + context_size (config s))); [reflexivity | lia]. }
  assert (E2 : analyse rt g' (with_config s2 o') c = done (with_config s2 o')).
  { unfold analyse.
    cbn [config buffer with_config o' with_tokenize_sentences
         minimum_sentence_length context_size].
    rewrite Hb.
    destruct (Z.leb_spec (len (lstrip (buffer s ++ [c])))
                (minimum_sentence_length (config s)
                 + context_size (config s))); [reflexivity | lia]. }
  rewrite E1, E2.
  cbn [config buffer is_first_sentence word_count with_config].
  unfold o' at 1 2 3 4 5.
  cbn [with_tokenize_sentences filter_first_non_alnum_characters
       minimum_first_fragment_length quick_yield_single_sentence_fragment
       sentence_fragment_delimiters force_first_fragment_after_words].
  destruct (_ && _ && negb _); [reflexivity|].
  destruct (_ && _ && _); [|reflexivity].
  destruct (last_char (buffer s2)); [|reflexivity].
  destruct (_ || _); [|reflexivity].
  unfold quick_yield, reconfigured.
  cbn [config buffer with_config o' with_tokenize_sentences
       quick_yield_every_fragment yielded after raised].
  rewrite Hc.
  destruct (quick_yield_every_fragment (config s)); reflexivity.
Qed.

(** C5: a sentence leaves [stream] through the commit path only at a step
    where the buffer is longer than [minimum_sentence_length +
    context_size] and the merged sentence list has more than two entries or
    a recorded last-delimiter position lies in the window [windowStart,
    windowEnd] with [windowEnd = len(buffer) - context_size - 1] and
    [windowStart = max(0, windowEnd - context_size_look_overhead)]; while
    the buffer is no longer than [minimum_sentence_length + context_size]
    the step commits nothing, records no delimiter position and makes no
    use of the tokenizer: it is the same step under any module globals and
    with any function, one that raises on every text included, in the
    place of [tokenize_sentences]. *)
Theorem commit_only_on_trusted_boundary
        (g : globals) (s : SentenceSplitter) (c : char) :
  let o := config s in
  let b := lstrip (buffer s ++ [c]) in
  let windowEnd := (len b - context_size o - 1)%Z in
  let windowStart := Z.max 0 (windowEnd - context_size_look_overhead o) in
  let position := if char_in c (full_sentence_delimiters o)
                  then (len b - 1)%Z else last_delimiter_position s in
  (forall t, In (Commit, t) (yielded (process_char rt g s c)) ->
     (minimum_sentence_length o + context_size o < len b)%Z
     /\ exists tokens,
         _tokenize_sentences rt g b (tokenize_sentences o) = Ok tokens
         /\ ((2 < length (combine_sentences (minimum_sentence_length o) []
                                            tokens))%nat
             \/ (0 <= position /\ windowStart <= position <= windowEnd)%Z))
  /\ ((len b <= minimum_sentence_length o + context_size o)%Z ->
      (forall t, ~ In (Commit, t) (yielded (process_char rt g s c)))
      /\ last_delimiter_position (after (process_char rt g s c))
         = last_delimiter_position s
      /\ (forall g', process_char rt g' s c = process_char rt g s c)
      /\ forall g' f,
          process_char rt g' (with_config s (with_tokenize_sentences o f)) c
          = reconfigured (with_tokenize_sentences o f)
                         (process_char rt g s c)).
Proof.
  intros o b windowEnd windowStart position.
  assert (Hq : forall x t, ~ In (Commit, t) (yielded (quick_yield rt x)))
    by (intros x t [H | []]; discriminate H).
  pose proof (process_char_cases g s c) as Hcases. cbv zeta in Hcases.
  fold o in Hcases.
  pose proof (analyse_cases rt g (appended s c) c) as Ha. cbv zeta in Ha.
  rewrite appended_config, appended_buffer, appended_position in Ha.
  fold o b in Ha.
  split.
  - intros t Hin.
    destruct Hcases
      as [(_ & _ & _ & E) | [(_ & _ & _ & [[_ E] | (l & _ & _ & E)]) | E]];
      rewrite E in Hin; try (now destruct Hin); try (now apply Hq in Hin).
    destruct Ha as [[_ E'] | [Hlen [(e & _ & E') | (tokens & Ht & E')]]];
      try (rewrite E' in Hin; now destruct Hin).
    split; [exact Hlen|]. exists tokens. split; [exact Ht|].
    destruct E' as [E' | (Hc & _)];
      [rewrite E' in Hin; now destruct Hin|].
    apply commit_condition_true in Hc. exact Hc.
  - intros Hlen.
    assert (Ea : forall g', analyse rt g' (appended s c) c
                            = done (appended s c)).
    { intros g'. unfold analyse. rewrite appended_config, appended_buffer.
      fold o b. destruct (Z.leb_spec (len b)
                  (minimum_sentence_length o + context_size o));
        [reflexivity | lia]. }
    assert (Eg : forall g', process_char rt g' s c = process_char rt g s c).
    { intros g'. unfold process_char.
      change (if isspace c || char_in c (sentence_fragment_delimiters
                                           (config s))
              then set_word_count
                     (set_buffer s (lstrip (buffer s ++ [c])))
                     (word_count
                        (set_buffer s (lstrip (buffer s ++ [c]))) + 1)
              else set_buffer s (lstrip (buffer s ++ [c])))
        with (appended s c).
      now rewrite !Ea. }
    split; [|split; [|split; [exact Eg|]]];
      [| |intros g' f; now apply process_char_short].
    + intros t Hin.
      destruct Hcases
        as [(_ & _ & _ & E) | [(_ & _ & _ & [[_ E] | (l & _ & _ & E)]) | E]];
        rewrite E in Hin; try (now destruct Hin);
        try (now apply Hq in Hin).
      rewrite Ea in Hin. now destruct Hin.
    + destruct Hcases
        as [(_ & _ & _ & E) | [(_ & _ & _ & [[_ E] | (l & _ & _ & E)]) | E]];
        rewrite E; try reflexivity.
      * simpl. apply appended_position.
      * unfold quick_yield. simpl.
        destruct (quick_yield_every_fragment _); simpl;
          apply appended_position.
      * rewrite Ea. simpl. apply appended_position.
Qed.

End StepCases.

Lemma commit_only_on_trusted_boundary_witness :
  (In (Commit, str "This is the first sentence.")
      (yielded (process_char test_runtime module_globals mid_sentence 110%N))
   /\ (minimum_sentence_length (config mid_sentence)
       + context_size (config mid_sentence)
       < len (lstrip (buffer mid_sentence ++ [110%N])))%Z)
  /\ process_char test_runtime module_globals
                  (with_config (new_splitter test_runtime simple_options)
                     (with_tokenize_sentences
                        (config (new_splitter test_runtime simple_options))
                        (Some (fun _ => Raise TypeError))))
                  72%N
     = reconfigured
         (with_tokenize_sentences
            (config (new_splitter test_runtime simple_options))
            (Some (fun _ => Raise TypeError)))
         (process_char test_runtime module_globals
                       (new_splitter test_runtime simple_options) 72%N).
Proof.
  assert (H : In (Commit, str "This is the first sentence.")
                 (yielded (process_char test_runtime module_globals
                                        mid_sentence 110%N)))
    by (vm_compute; auto).
  split.
  - split; [exact H|].
    exact (proj1 (proj1 (commit_only_on_trusted_boundary
                           test_runtime module_globals mid_sentence 110%N)
                        _ H)).
  - apply (proj2 (commit_only_on_trusted_boundary
                    test_runtime module_globals
                    (new_splitter test_runtime simple_options) 72%N)).
    vm_compute. discriminate.
Defined.

(** ** [flush] *)

Section FlushFacts.

Variable rt : runtime.

(** C10: [flush] assigns no attribute of the splitter: the object after the
    call is the object before it (also when the tokenizer raises), so a
    second call yields what the first did; on an empty buffer it yields
    nothing. *)
Theorem flush_leaves_splitter_unchanged (g : globals) (s : SentenceSplitter) :
  after (flush rt g s) = s
  /\ flush rt g (after (flush rt g s)) = flush rt g s
  /\ (buffer s = [] ->
      yielded (flush rt g s) = [] /\ raised (flush rt g s) = None).
Proof.
  assert (H : after (flush rt g s) = s).
  { unfold flush. destruct (nonempty (buffer s)); [|reflexivity].
    now destruct (_tokenize_sentences rt g (buffer s) _). }
  split; [exact H|]. split; [now rewrite H|].
  intros E. unfold flush. rewrite E. simpl. auto.
Qed.

End FlushFacts.

(** ** The tokenizer name *)

Section TokenizerName.

Variable rt : runtime.

Lemma builtin_tokenizer_false (name : string) :
  builtin_tokenizer name = false ->
  String.eqb name "nltk" = false /\ String.eqb name "stanza" = false.
Proof. unfold builtin_tokenizer. now intros H%orb_false_elim. Qed.

Lemma init_globals (g : globals) (o : options) :
  fst (fst (__init__ rt g o))
  = fst (init_tokenizer rt (set_current_tokenizer g (tokenizer o))
                        (tokenizer o) (language o) (debug o)).
Proof.
  unfold __init__. simpl.
  now destruct (init_tokenizer rt _ (tokenizer o) (language o) (debug o)).
Qed.

Lemma init_logs (g : globals) (o : options) :
  snd (fst (__init__ rt g o))
  = snd (init_tokenizer rt (set_current_tokenizer g (tokenizer o))
                        (tokenizer o) (language o) (debug o)).
Proof.
  unfold __init__. simpl.
  now destruct (init_tokenizer rt _ (tokenizer o) (language o) (debug o)).
Qed.

Lemma init_splitter (g : globals) (o : options) :
  snd (__init__ rt g o)
  = {| config := adjust_flags o; input_buffer := []; buffer := [];
       is_first_sentence := true; word_count := 0;
       last_delimiter_position := -1 |}.
Proof.
  unfold __init__. simpl.
  now destruct (init_tokenizer rt _ (tokenizer o) (language o) (debug o)).
Qed.

Lemma init_current_tokenizer (g : globals) (o : options) :
  current_tokenizer (fst (fst (__init__ rt g o))) = tokenizer o.
Proof.
  rewrite init_globals. unfold init_tokenizer, initialize_nltk,
    initialize_stanza.
  repeat match goal with
         | |- context [if ?b then _ else _] => destruct b
         | |- context [match ?x with Some _ => _ | None => _ end] =>
             destruct x
         end; reflexivity.
Qed.

(** C4 (amended): with a tokenizer name that is not built in, [__init__]
    still returns a splitter; the name is reported by one logged warning and
    stored as given, with no default put in its place; without a custom
    tokenize function every later call of the tokenizer raises [ValueError],
    which [stream] meets at the first character analysed with a buffer longer
    than [minimum_sentence_length + context_size] and [flush] on a non-empty
    buffer, while [flush] on an empty buffer raises nothing. *)
Theorem unknown_tokenizer_warns_then_raises (g : globals) (o : options) :
  builtin_tokenizer (tokenizer o) = false ->
  let g' := fst (fst (__init__ rt g o)) in
  let message := String.append "Unknown tokenizer: " (tokenizer o) in
  snd (fst (__init__ rt g o)) = [LogWarning message]
  /\ current_tokenizer g' = tokenizer o
  /\ config (snd (__init__ rt g o)) = adjust_flags o
  /\ (forall t, _tokenize_sentences rt g' t None = Raise (ValueError message))
  /\ (forall s c, tokenize_sentences (config s) = None ->
        (minimum_sentence_length (config s) + context_size (config s)
         < len (buffer s))%Z ->
        raised (analyse rt g' s c) = Some (ValueError message))
  /\ (forall s, tokenize_sentences (config s) = None ->
        raised (flush rt g' s)
        = if nonempty (buffer s) then Some (ValueError message) else None).
Proof.
  intros Hb g' message.
  destruct (builtin_tokenizer_false _ Hb) as [H1 H2].
  assert (Hg : g' = set_current_tokenizer g (tokenizer o)).
  { unfold g'. rewrite init_globals. unfold init_tokenizer.
    now rewrite H1, H2. }
  assert (Ht : forall t, _tokenize_sentences rt g' t None
                         = Raise (ValueError message)).
  { intros t. unfold _tokenize_sentences. rewrite Hg. simpl.
    now rewrite H1, H2. }
  repeat split.
  - rewrite init_logs. unfold init_tokenizer. now rewrite H1, H2.
  - now rewrite Hg.
  - now rewrite init_splitter.
  - exact Ht.
  - intros s c Hs Hlen.
    destruct (analyse_cases rt g' s c)
      as [[Hle _] | [_ [(e & He & ->) | (tokens & He & _)]]];
      [lia | | rewrite Hs, Ht in He; discriminate He].
    rewrite Hs, Ht in He. now injection He as <-.
  - intros s Hs. unfold flush. rewrite Hs, Ht.
    now destruct (nonempty (buffer s)).
Qed.

End TokenizerName.

Lemma unknown_tokenizer_warns_then_raises_witness :
  snd (fst (__init__ test_runtime module_globals
                     (example_options 10 true 30 false "spacy" None)))
  = [LogWarning "Unknown tokenizer: spacy"].
Proof.
  exact (proj1 (unknown_tokenizer_warns_then_raises
                  test_runtime module_globals
                  (example_options 10 true 30 false "spacy" None)
                  eq_refl)).
Defined.

(** C4 (as stated) fails: with the unknown name ["spacy"] and quick yield
    switched on, the fragment ["Hello there, "] is processed and its sentence
    delivered, and the run ends without any exception. *)
Lemma unknown_tokenizer_not_rejected :
  ~ (forall (o : options) (chunks : list text),
        builtin_tokenizer (tokenizer o) = false ->
        tokenize_sentences o = None ->
        exists message,
          snd (generate_sentences test_runtime module_globals chunks o)
          = ([], Some (ValueError message))).
Proof.
  intros H.
  destruct (H (example_options 10 true 30 false "spacy" None)
              [str "Hello there, "] eq_refl eq_refl) as [message E].
  vm_compute in E. discriminate E.
Qed.

(** C9 (evaluated at the failing input): a splitter built for ["nltk"] reads
    ["Hello there. "]; its stored configuration still names ["nltk"], and
    [flush] delivers the sentence; once a second splitter is built for
    ["spacy"], the same [flush] of the first splitter raises
    [ValueError("Unknown tokenizer: spacy")]. *)
Lemma later_splitter_replaces_tokenizer :
  let first := example_options 10 false 30 false "nltk" None in
  let second := example_options 10 false 30 false "spacy" None in
  let g1 := fst (fst (__init__ test_runtime module_globals first)) in
  let a := after (stream test_runtime g1
                         (add (snd (__init__ test_runtime module_globals first))
                              (str "Hello there. "))) in
  let g2 := fst (fst (__init__ test_runtime g1 second)) in
  tokenizer (config a) = "nltk"%string
  /\ sentences_of (yielded (flush test_runtime g1 a)) = [str "Hello there."]
  /\ raised (flush test_runtime g1 a) = None
  /\ yielded (flush test_runtime g2 a) = []
  /\ raised (flush test_runtime g2 a)
     = Some (ValueError "Unknown tokenizer: spacy").
Proof. vm_compute. repeat split. Qed.

(** ** Runs of the entry points *)

Section EntryFacts.

Variable rt : runtime.

(** The splitter reads the module globals only through the tokenizer they
    select. *)
Lemma tokenize_same (g g' : globals) (t : text) (f : option tokenize_fn) :
  same_tokenizer g g' ->
  _tokenize_sentences rt g t f = _tokenize_sentences rt g' t f.
Proof.
  intros [H1 H2]. unfold _tokenize_sentences. now rewrite H1, H2.
Qed.

Lemma analyse_same (g g' : globals) (s : SentenceSplitter) (c : char) :
  same_tokenizer g g' -> analyse rt g s c = analyse rt g' s c.
Proof.
  intros H. unfold analyse.
  now rewrite (tokenize_same g g' _ _ H).
Qed.

Lemma process_char_same (g g' : globals) (s : SentenceSplitter) (c : char) :
  same_tokenizer g g' -> process_char rt g s c = process_char rt g' s c.
Proof.
  intros H. unfold process_char.
  now rewrite !(analyse_same g g' _ _ H).
Qed.

Lemma feed_same (g g' : globals) (chunk : text) (s : SentenceSplitter) :
  same_tokenizer g g' -> feed rt g s chunk = feed rt g' s chunk.
Proof.
  intros H. revert s. induction chunk as [|c rest IH]; intros s; simpl;
    [reflexivity|].
  rewrite (process_char_same g g' s c H). unfold and_then.
  destruct (raised (process_char rt g' s c)); [reflexivity|].
  now rewrite IH.
Qed.

Lemma stream_queue_same (g g' : globals) (queue : list text)
      (s : SentenceSplitter) :
  same_tokenizer g g' -> stream_queue rt g s queue = stream_queue rt g' s queue.
Proof.
  intros H. revert s. induction queue as [|chunk rest IH]; intros s; simpl;
    [reflexivity|].
  rewrite (feed_same g g' chunk _ H). unfold and_then.
  destruct (raised (feed rt g' _ chunk)); [reflexivity|].
  now rewrite IH.
Qed.

Lemma flush_same (g g' : globals) (s : SentenceSplitter) :
  same_tokenizer g g' -> flush rt g s = flush rt g' s.
Proof.
  intros H. unfold flush. now rewrite (tokenize_same g g' _ _ H).
Qed.

Lemma drive_same (g g' : globals) (generator : async_source)
      (s : SentenceSplitter) :
  same_tokenizer g g' -> drive rt g s generator = drive rt g' s generator.
Proof.
  intros H. revert s.
  induction generator as [chunk rest IH | rest IH | | e]; intros s; simpl.
  - unfold stream. rewrite (stream_queue_same g g' _ _ H).
    destruct (raised (stream_queue rt g' _ _)); [reflexivity|].
    now rewrite IH.
  - now rewrite IH.
  - now rewrite (flush_same g g' s H).
  - reflexivity.
Qed.

(** Building a second splitter with the options of the first selects the
    tokenizer the first one selected. *)
Lemma init_twice_same (g : globals) (o : options) :
  let g1 := fst (fst (__init__ rt g o)) in
  same_tokenizer g1 (fst (fst (__init__ rt g1 o))).
Proof.
  cbv zeta. rewrite !init_globals.
  unfold init_tokenizer, same_tokenizer.
  destruct (String.eqb (tokenizer o) "nltk") eqn:E1.
  - unfold initialize_nltk. simpl.
    destruct (nltk_initialized g) eqn:En; simpl.
    + rewrite En. simpl. auto.
    + destruct (nltk_download_ok rt); simpl; auto.
  - destruct (String.eqb (tokenizer o) "stanza") eqn:E2; [|simpl; auto].
    unfold initialize_stanza. simpl.
    destruct (stanza_initialized g) eqn:Es; simpl.
    + rewrite Es. simpl. auto.
    + destruct (stanza_Pipeline rt (language o) (debug o)) eqn:Ep; simpl;
        auto.
Qed.

Lemma generate_async_behaviour (g : globals) (generator : async_source)
      (o : options) :
  snd (generate_sentences_async rt g generator o)
  = drive rt (fst (fst (__init__ rt g o))) (snd (__init__ rt g o)) generator.
Proof.
  unfold generate_sentences_async. now destruct (__init__ rt g o) as [[g' l] s].
Qed.

Lemma generate_async_globals (g : globals) (generator : async_source)
      (o : options) :
  fst (fst (generate_sentences_async rt g generator o))
  = fst (fst (__init__ rt g o)).
Proof.
  unfold generate_sentences_async. now destruct (__init__ rt g o) as [[g' l] s].
Qed.

Lemma generate_sentences_unfold (g : globals) (generator : list text)
      (o : options) :
  generate_sentences rt g generator o
  = (fst (generate_sentences_async rt g (gen_wrap generator) o),
     _async_iter_to_sync
       (snd (generate_sentences_async rt g (gen_wrap generator) o))).
Proof.
  unfold generate_sentences.
  now destruct (generate_sentences_async rt g (gen_wrap generator) o)
    as [[g' l] b].
Qed.

(** C7: two splitters built one after the other in the same process from
    the same options and fed the same fragments deliver the same sentences
    (and end the same way), although the second one starts from the module
    globals the first one left; a second splitter built before the first
    one is driven is the same object and behaves the same on every source. *)
Theorem same_input_same_sentences
        (g : globals) (generator : list text) (o : options) :
  let first := generate_sentences rt g generator o in
  let second := generate_sentences rt (fst (fst first)) generator o in
  snd second = snd first
  /\ forall source : async_source,
      let g1 := fst (fst (__init__ rt g o)) in
      let g2 := fst (fst (__init__ rt g1 o)) in
      snd (__init__ rt g1 o) = snd (__init__ rt g o)
      /\ drive rt g2 (snd (__init__ rt g1 o)) source
         = drive rt g1 (snd (__init__ rt g o)) source.
Proof.
  cbv zeta. split.
  - rewrite !generate_sentences_unfold. simpl.
    rewrite !generate_async_behaviour, generate_async_globals.
    rewrite !init_splitter. f_equal. symmetry. apply drive_same.
    apply init_twice_same.
  - intros source. rewrite !init_splitter. split; [reflexivity|].
    symmetry. apply drive_same, init_twice_same.
Qed.

(** *** The synchronous adapter *)

Lemma sync_events_no_suspend (evs : list event) (e : option exn) :
  ~ In Suspend evs -> _async_iter_to_sync_events evs e = (awaited evs, e).
Proof.
  induction evs as [|[v|] rest IH]; simpl; intros H.
  - reflexivity.
  - rewrite IH by tauto. reflexivity.
  - exfalso. auto.
Qed.

Lemma sync_events_suspend (evs : list event) (e : option exn) :
  In Suspend evs ->
  exists out rest,
    _async_iter_to_sync_events evs e
    = (out, Some (RuntimeError "failed to be synchronous"))
    /\ awaited evs = out ++ rest.
Proof.
  induction evs as [|[v|] rest IH]; simpl; intros H.
  - contradiction.
  - destruct H as [H | H]; [discriminate H|].
    destruct (IH H) as (out & rest' & E1 & E2).
    exists (v :: out), rest'. rewrite E1, E2. auto.
  - exists [], (awaited rest). auto.
Qed.

Lemma yields_no_suspend (r : run) : ~ In Suspend (yields_of r).
Proof.
  unfold yields_of. intros H. apply in_map_iff in H as (x & E & _).
  discriminate E.
Qed.

Lemma drive_no_suspend (g : globals) (generator : async_source)
      (s : SentenceSplitter) :
  never_suspends generator = true -> ~ In Suspend (events (drive rt g s generator)).
Proof.
  revert s. induction generator as [chunk rest IH | rest IH | | e];
    intros s H; simpl in *.
  - destruct (raised (stream rt g (add s chunk))); simpl.
    + apply yields_no_suspend.
    + intros Hin. apply in_app_or in Hin as [Hin | Hin].
      * now apply yields_no_suspend in Hin.
      * now apply IH in Hin.
  - discriminate H.
  - apply yields_no_suspend.
  - auto.
Qed.

Lemma gen_wrap_never_suspends (generator : list text) :
  never_suspends (gen_wrap generator) = true.
Proof. induction generator; simpl; auto. Qed.

End EntryFacts.

(** ** Minimum sentence length *)

Lemma drop_while_length (p : char -> bool) (t : text) :
  length (drop_while p t) <= length t.
Proof.
  induction t as [|c r IH]; simpl; [lia|]. destruct (p c); simpl; lia.
Qed.










Lemma awaited_yields (r : run) (evs : list event) :
  awaited (yields_of r ++ evs) = yielded r ++ awaited evs.
Proof.
  unfold yields_of. induction (yielded r) as [|e l IH]; simpl;
    [reflexivity | now rewrite IH].
Qed.

Lemma awaited_yields_only (r : run) : awaited (yields_of r) = yielded r.
Proof.
  rewrite <- (app_nil_r (yields_of r)), awaited_yields. apply app_nil_r.
Qed.

Lemma and_then_yielded (r : run) (k : SentenceSplitter -> run)
      (P : emission -> Prop) :
  Forall P (yielded r) ->
  (forall s, Forall P (yielded (k s))) ->
  Forall P (yielded (and_then r k)).
Proof.
  intros H1 H2. unfold and_then. destruct (raised r); [exact H1|].
  simpl. apply Forall_app. auto.
Qed.

Section MinimumLength.

Variable rt : runtime.




(** The sanitizer takes no part in the decisions of the splitter: on the
    object with other cleanup switches each function yields the same texts,
    sanitized the other way, and leaves the same object.  The texts handed
    to [_clean_text] at the length-checked yields are long enough. *)









End MinimumLength.




(** ** A run as one stream of characters *)

Section RunFacts.

Variable rt : runtime.

Lemma and_then_assoc (r : run) (k1 k2 : SentenceSplitter -> run) :
  and_then (and_then r k1) k2 = and_then r (fun s => and_then (k1 s) k2).
Proof.
  unfold and_then. destruct r as [y a [e|]]; simpl; [reflexivity|].
  destruct (k1 a) as [y1 a1 [e1|]]; simpl; [reflexivity|].
  now rewrite app_assoc.
Qed.

Lemma and_then_ext (r : run) (k1 k2 : SentenceSplitter -> run) :
  (forall s, k1 s = k2 s) -> and_then r k1 = and_then r k2.
Proof. intros H. unfold and_then. now rewrite H. Qed.

Lemma feed_app (g : globals) (a b : text) (s : SentenceSplitter) :
  feed rt g s (a ++ b) = and_then (feed rt g s a) (fun s' => feed rt g s' b).
Proof.
  revert s. induction a as [|c a IH]; intros s; simpl.
  - unfold and_then, done. simpl. now destruct (feed rt g s b).
  - rewrite and_then_assoc. apply and_then_ext. intros s'. apply IH.
Qed.

Lemma process_char_input_buffer (g : globals) (s : SentenceSplitter)
      (c : char) :
  input_buffer (after (process_char rt g s c)) = input_buffer s.
Proof.
  unfold process_char, quick_yield.
  repeat match goal with
         | |- context [analyse rt g ?x c] =>
             rewrite (analyse_input_buffer rt g x c)
         | |- context [if ?b then _ else _] => destruct b
         | |- context [match ?x with Ok _ => _ | Raise _ => _ end] =>
             destruct x
         end; reflexivity.
Qed.

Lemma feed_input_buffer (g : globals) (chunk : text) (s : SentenceSplitter) :
  input_buffer (after (feed rt g s chunk)) = input_buffer s.
Proof.
  revert s. induction chunk as [|c rest IH]; intros s; simpl; [reflexivity|].
  unfold and_then. destruct (raised (process_char rt g s c)); simpl.
  - apply process_char_input_buffer.
  - rewrite IH. apply process_char_input_buffer.
Qed.

(** With an empty queue, [add] followed by [stream] feeds the chunk. *)
Lemma stream_add (g : globals) (s : SentenceSplitter) (chunk : text) :
  input_buffer s = [] -> stream rt g (add s chunk) = feed rt g s chunk.
Proof.
  intros H. unfold stream, add. simpl input_buffer. rewrite H. simpl.
  rewrite and_then_done. f_equal. destruct s; simpl in *. now subst.
Qed.

Lemma sync_events_app (r : run) (evs : list event) (e : option exn) :
  _async_iter_to_sync_events (yields_of r ++ evs) e
  = (yielded r ++ fst (_async_iter_to_sync_events evs e),
     snd (_async_iter_to_sync_events evs e)).
Proof.
  unfold yields_of. induction (yielded r) as [|x l IH]; simpl.
  - now destruct (_async_iter_to_sync_events evs e).
  - rewrite IH. reflexivity.
Qed.

Lemma sync_events_yields (r : run) (e : option exn) :
  _async_iter_to_sync_events (yields_of r) e = (yielded r, e).
Proof.
  rewrite <- (app_nil_r (yields_of r)), sync_events_app. simpl.
  now rewrite app_nil_r.
Qed.

(** Chunk boundaries do not matter: driving a plain iterable is feeding the
    concatenation of its chunks and flushing. *)
Lemma drive_gen_wrap (g : globals) (generator : list text)
      (s : SentenceSplitter) :
  input_buffer s = [] ->
  _async_iter_to_sync (drive rt g s (gen_wrap generator))
  = feed_then_flush rt g s (concat generator).
Proof.
  unfold _async_iter_to_sync, feed_then_flush, then_flush.
  revert s. induction generator as [|chunk rest IH]; intros s Hs; simpl.
  - apply sync_events_yields.
  - rewrite stream_add by exact Hs. rewrite feed_app. unfold and_then.
    destruct (raised (feed rt g s chunk)) eqn:Er; simpl.
    + rewrite Er. apply sync_events_yields.
    + rewrite sync_events_app, IH by (now rewrite feed_input_buffer).
      destruct (raised (feed rt g (after (feed rt g s chunk)) (concat rest)));
        simpl; [reflexivity|].
      now rewrite app_assoc.
Qed.

Lemma generate_sentences_run (g : globals) (generator : list text)
      (o : options) :
  snd (generate_sentences rt g generator o)
  = feed_then_flush rt (fst (fst (__init__ rt g o))) (snd (__init__ rt g o))
                    (concat generator).
Proof.
  rewrite generate_sentences_unfold. simpl.
  rewrite generate_async_behaviour. apply drive_gen_wrap.
  now rewrite init_splitter.
Qed.

Lemma then_flush_first (g : globals) (r : run) (k : SentenceSplitter -> run)
      (x : emission) (tl : list emission) :
  yielded r = x :: tl ->
  exists tl', fst (then_flush rt g (and_then r k)) = x :: tl'.
Proof.
  unfold then_flush, and_then. destruct r as [y a [e|]]; simpl; intros ->.
  - eauto.
  - destruct (k a) as [y' a' [e'|]]; simpl; eauto.
Qed.

Lemma then_flush_raised (g : globals) (r : run) (k : SentenceSplitter -> run)
      (e : exn) :
  raised r = Some e -> then_flush rt g (and_then r k) = (yielded r, Some e).
Proof. intros H. unfold then_flush, and_then. now rewrite H, H. Qed.

Lemma then_flush_silent (g : globals) (r : run) (k : SentenceSplitter -> run) :
  yielded r = [] -> raised r = None ->
  then_flush rt g (and_then r k) = then_flush rt g (k (after r)).
Proof.
  intros Hy Hr. unfold then_flush, and_then. rewrite Hr, Hy. simpl.
  now destruct (raised (k (after r))).
Qed.

Lemma flush_sentences_sites (o : options) (sentences : list text)
      (sentence_buffer : text) (e : emission) :
  In e (flush_sentences rt o sentence_buffer sentences) ->
  fst e = FlushFull \/ fst e = FlushRest.
Proof.
  revert sentence_buffer.
  induction sentences as [|s rest IH]; intros sb; simpl.
  - destruct (nonempty sb); simpl; [|tauto]. intros [<- | []]. now right.
  - destruct (_ <? _)%Z; [apply IH|]. intros [<- | H]; [now left|].
    eapply IH, H.
Qed.

Lemma flush_sites (g : globals) (s : SentenceSplitter) (e : emission) :
  In e (yielded (flush rt g s)) -> fst e = FlushFull \/ fst e = FlushRest.
Proof.
  unfold flush. destruct (nonempty (buffer s)); simpl; [|tauto].
  destruct (_tokenize_sentences rt g (buffer s) _); simpl; [|tauto].
  apply flush_sentences_sites.
Qed.

(** Under an event loop, a source that stops delivers to the engine what a
    plain iterable of its chunks delivers through the synchronous wrapper. *)
Lemma drive_chunks (g : globals) (source : async_source) :
  stops source = true ->
  forall s,
    _async_iter_to_sync (drive rt g s (gen_wrap (chunks_of source)))
    = run_async (drive rt g s source).
Proof.
  unfold _async_iter_to_sync, run_async.
  induction source as [chunk rest IH | rest IH | | e]; intros Hs s;
    simpl in *.
  - destruct (raised (stream rt g (add s chunk))); simpl.
    + now rewrite sync_events_yields, awaited_yields_only.
    + rewrite sync_events_app, awaited_yields, (IH Hs). reflexivity.
  - apply IH, Hs.
  - now rewrite sync_events_yields, awaited_yields_only.
  - discriminate Hs.
Qed.

(** C8: for every asynchronous source that stops, [generate_sentences] on
    the plain iterable of its chunks delivers exactly what
    [generate_sentences_async] delivers under an event loop on that source
    (globals, log, sentences and ending alike), wherever the source
    suspends; on every source that never suspends the adapter
    [_async_iter_to_sync] delivers what the event loop delivers; and when a
    suspension does reach the adapter it raises [RuntimeError] there: it
    passes on the sentences yielded before the suspension and none after. *)
Theorem sync_delivers_what_async_delivers (g : globals) (o : options) :
  (forall source : async_source,
      stops source = true ->
      generate_sentences rt g (chunks_of source) o
      = (fst (generate_sentences_async rt g source o),
         run_async (snd (generate_sentences_async rt g source o))))
  /\ (forall source : async_source,
         never_suspends source = true ->
         _async_iter_to_sync (snd (generate_sentences_async rt g source o))
         = run_async (snd (generate_sentences_async rt g source o)))
  /\ (forall source : async_source,
         let b := snd (generate_sentences_async rt g source o) in
         In Suspend (events b) ->
         exists out rest,
           _async_iter_to_sync b
           = (out, Some (RuntimeError "failed to be synchronous"))
           /\ fst (run_async b) = out ++ rest).
Proof.
  split; [|split].
  - intros source Hs. rewrite generate_sentences_unfold. f_equal.
    + unfold generate_sentences_async.
      now destruct (__init__ rt g o) as [[g' l] s].
    + rewrite !generate_async_behaviour. now apply drive_chunks.
  - intros source Hs. rewrite generate_async_behaviour.
    unfold _async_iter_to_sync, run_async.
    apply sync_events_no_suspend, drive_no_suspend, Hs.
  - intros source b Hin. unfold _async_iter_to_sync, run_async. simpl.
    now apply sync_events_suspend.
Qed.

End RunFacts.

Lemma sync_delivers_what_async_delivers_witness :
  snd (generate_sentences test_runtime module_globals
         [str "Hello there, my friend. How are you today? ";
          str "I am fine."] simple_options)
  = run_async
      (snd (generate_sentences_async test_runtime module_globals
              (SrcItem (str "Hello there, my friend. How are you today? ")
                 (SrcSuspend (SrcItem (str "I am fine.") SrcStop)))
              simple_options))
  /\ exists out rest,
      _async_iter_to_sync
        (snd (generate_sentences_async test_runtime module_globals
                (SrcItem (str "Hello there, my friend. How are you today? ")
                   (SrcSuspend (SrcItem (str "I am fine.") SrcStop)))
                simple_options))
      = (out, Some (RuntimeError "failed to be synchronous"))
      /\ fst (run_async
                (snd (generate_sentences_async test_runtime module_globals
                        (SrcItem
                           (str "Hello there, my friend. How are you today? ")
                           (SrcSuspend (SrcItem (str "I am fine.") SrcStop)))
                        simple_options)))
         = out ++ rest.
Proof.
  split.
  - exact (f_equal snd
             (proj1 (sync_delivers_what_async_delivers
                       test_runtime module_globals simple_options)
                    (SrcItem (str "Hello there, my friend. How are you today? ")
                       (SrcSuspend (SrcItem (str "I am fine.") SrcStop)))
                    eq_refl)).
  - apply (proj2 (proj2 (sync_delivers_what_async_delivers
                           test_runtime module_globals simple_options))).
    vm_compute. auto.
Defined.

(** ** Minimum sentence length: the whole run *)

Section MinimumLengthRun.

Variable rt : runtime.



End MinimumLengthRun.



(** The assumption on the tokenizer is needed: a tokenizer that returns the
    text as it is lets [flush] take ["abcdefgh  "], ten characters, as long
    enough, and the sentence is yielded stripped, with eight. *)
Example padded_sentence_below_minimum :
  snd (generate_sentences test_runtime module_globals [str "abcdefgh  "]
         (example_options 10 false 30 false "nltk" (Some (fun t => Ok [t]))))
  = ([(FlushFull, str "abcdefgh")], None).
Proof. vm_compute. reflexivity. Qed.

(** ** The quick-yield word ceiling *)

Lemma subtext_refl (t : text) : subtext t t.
Proof. induction t; constructor; assumption. Qed.

Lemma subtext_trans (a b c : text) : subtext a b -> subtext b c -> subtext a c.
Proof.
  intros Hab Hbc. revert a Hab.
  induction Hbc as [|x b c _ IH|x b c _ IH]; intros a Hab.
  - exact Hab.
  - inversion Hab; subst; constructor; auto.
  - constructor. auto.
Qed.

Lemma subtext_suffix (a b : text) : subtext b (a ++ b).
Proof. induction a; simpl; [apply subtext_refl | now constructor]. Qed.

Lemma subtext_nil_l (t : text) : subtext [] t.
Proof. induction t; constructor; assumption. Qed.

Lemma subtext_prefix (a b : text) : subtext a (a ++ b).
Proof. induction a; simpl; [apply subtext_nil_l | now constructor]. Qed.

Lemma subtext_filter (p : char -> bool) (t : text) : subtext (filter p t) t.
Proof.
  induction t as [|c r IH]; simpl; [constructor|].
  destruct (p c); now constructor.
Qed.

Lemma subtext_strip (t : text) : subtext (strip t) t.
Proof.
  destruct (strip_infix t) as (a & b & E). rewrite E at 2.
  eapply subtext_trans; [apply subtext_prefix | apply subtext_suffix].
Qed.

Lemma match_link_suffix (t rest : text) :
  match_link t = Some rest -> exists m, t = m ++ rest.
Proof.
  intros H.
  destruct (match_link_Some _ _ H) as (pre & c & r & _ & _ & -> & ->).
  destruct (drop_while_suffix link_char r) as [a Ha].
  exists (pre ++ c :: a). rewrite <- app_assoc. simpl. now rewrite <- Ha.
Qed.

Lemma subtext_sub_links (fuel : nat) (t : text) : subtext (sub_links fuel t) t.
Proof.
  revert t. induction fuel as [|f IH]; intros t; simpl;
    [apply subtext_refl|].
  destruct t as [|c r]; [constructor|].
  destruct (match_link (c :: r)) as [rest|] eqn:E.
  - destruct (match_link_suffix _ _ E) as [m ->].
    eapply subtext_trans; [apply IH | apply subtext_suffix].
  - constructor. apply IH.
Qed.

Lemma subtext_clean_text (is_emoji : char -> bool) (t : text)
      (links emojis strip_text : bool) :
  subtext (_clean_text is_emoji t links emojis strip_text) t.
Proof.
  unfold _clean_text.
  assert (H1 : subtext (if links then _remove_links t else t) t)
    by (destruct links; [apply subtext_sub_links | apply subtext_refl]).
  set (t1 := if links then _remove_links t else t) in *.
  assert (H2 : subtext (if emojis then _remove_emojis is_emoji t1 else t1) t1)
    by (destruct emojis; [apply subtext_filter | apply subtext_refl]).
  set (t2 := if emojis then _remove_emojis is_emoji t1 else t1) in *.
  destruct strip_text.
  - eapply subtext_trans; [apply subtext_strip|].
    eapply subtext_trans; eassumption.
  - eapply subtext_trans; eassumption.
Qed.

(** Leaving characters out never adds a word. *)
Lemma count_words_inside (t : text) :
  count_words_from true t <= count_words_from false t
  /\ count_words_from false t <= S (count_words_from true t).
Proof.
  destruct t as [|c r]; simpl; [lia|]. destruct (isspace c); lia.
Qed.

Lemma count_words_subtext (a b : text) :
  subtext a b ->
  forall inside, count_words_from inside a <= count_words_from inside b.
Proof.
  induction 1 as [|c a b _ IH|c a b _ IH]; intros inside; simpl.
  - lia.
  - destruct (isspace c); [apply IH|].
    destruct inside; [apply IH|]. specialize (IH true). lia.
  - pose proof (count_words_inside a) as [H1 H2].
    destruct (isspace c).
    + specialize (IH false). destruct inside; lia.
    + specialize (IH true). destruct inside; lia.
Qed.

(** In a text that ends with whitespace every word is followed by a
    whitespace character of its own. *)
Lemma count_words_spaces (r : text) (w : char) :
  isspace w = true ->
  forall inside,
    count_words_from inside (r ++ [w]) + (if inside then 1 else 0)
    <= length (filter isspace (r ++ [w])).
Proof.
  intros Hw. induction r as [|c r IH]; intros inside; simpl.
  - rewrite Hw. simpl. destruct inside; lia.
  - destruct (isspace c) eqn:Ec; simpl.
    + specialize (IH false). simpl in IH. destruct inside; lia.
    + specialize (IH true). simpl in IH. destruct inside; lia.
Qed.

Lemma count_spaces_app (a b : text) :
  count_spaces (a ++ b) = (count_spaces a + count_spaces b)%Z.
Proof. unfold count_spaces. rewrite filter_app, length_app. lia. Qed.

Lemma count_spaces_nonneg (a : text) : (0 <= count_spaces a)%Z.
Proof. unfold count_spaces. lia. Qed.

Lemma count_spaces_one (c : char) :
  count_spaces [c] = if isspace c then 1%Z else 0%Z.
Proof. unfold count_spaces. simpl. now destruct (isspace c). Qed.

Lemma lstrip_lstrip_app (x y : text) : lstrip (lstrip x ++ y) = lstrip (x ++ y).
Proof.
  unfold lstrip. induction x as [|c x IH]; simpl; [reflexivity|].
  destruct (isspace c) eqn:E; [exact IH|]. simpl. now rewrite E.
Qed.

Lemma last_char_snoc (x : text) (c l : char) :
  last_char (lstrip (x ++ [c])) = Ok l -> l = c.
Proof.
  unfold lstrip. destruct (drop_while_suffix isspace (x ++ [c])) as [a Ha].
  unfold last_char.
  destruct (rev (drop_while isspace (x ++ [c]))) as [|d r] eqn:E;
    [discriminate|].
  intros [= <-]. apply (f_equal (@rev char)) in Ha.
  rewrite !rev_app_distr, E in Ha. simpl in Ha. now injection Ha.
Qed.

Lemma words_of_spaced_buffer (x : text) (w : char) :
  isspace w = true ->
  lstrip (x ++ [w]) <> [] ->
  (word_count_of (lstrip (x ++ [w])) <= count_spaces (x ++ [w]))%Z.
Proof.
  intros Hw Hne. unfold lstrip in *.
  destruct (drop_while_suffix isspace (x ++ [w])) as [a Ha].
  remember (drop_while isspace (x ++ [w])) as y eqn:Ey.
  assert (exists r, y = r ++ [w]) as [r ->].
  { destruct (rev y) as [|d r] eqn:E.
    - apply (f_equal (@rev char)) in E. rewrite rev_involutive in E.
      contradiction.
    - apply (f_equal (@rev char)) in Ha.
      rewrite !rev_app_distr, E in Ha. simpl in Ha. injection Ha as -> _.
      exists (rev r). apply (f_equal (@rev char)) in E.
      now rewrite rev_involutive in E. }
  rewrite Ha, count_spaces_app.
  pose proof (count_spaces_nonneg a).
  pose proof (count_words_spaces r w Hw false) as H1. simpl in H1.
  unfold word_count_of. unfold count_spaces at 2. lia.
Qed.

Section QuickYield.

Variable rt : runtime.

Lemma quiet_appended (o : options) (s : SentenceSplitter) (seen : text)
      (c : char) :
  quiet o s seen ->
  char_in c (sentence_fragment_delimiters o) = false ->
  quiet o (appended s c) (seen ++ [c]).
Proof.
  intros (Hc & Hb & Hw & Hf) Hd. unfold quiet.
  rewrite appended_config, appended_buffer, appended_word_count,
    appended_first, Hc, Hb, Hw, Hd, lstrip_lstrip_app, count_spaces_app,
    count_spaces_one.
  repeat split; auto. rewrite orb_false_r. destruct (isspace c); lia.
Qed.

Lemma quiet_set_if_delimiter (o : options) (s : SentenceSplitter)
      (seen : text) (c : char) :
  quiet o s seen -> quiet o (set_if_delimiter s c) seen.
Proof. unfold set_if_delimiter. now destruct (char_in c _). Qed.

Lemma removelast_nonempty (A : Type) (l : list A) :
  1 < length l -> exists x tl, removelast l = x :: tl.
Proof.
  destruct l as [|x [|y l]]; simpl; try lia. intros _. eauto.
Qed.

(** One character read by a splitter that has yielded nothing yet and meets
    no soft delimiter: it yields nothing and stays as it was described, or it
    commits sentences, or it yields the buffer as first fragment, which takes
    a whitespace character, the word count at the ceiling and a buffer longer
    than the first-fragment minimum. *)
Lemma process_char_quiet (g : globals) (o : options) (s : SentenceSplitter)
      (seen : text) (c : char) :
  quiet o s seen ->
  filter_first_non_alnum_characters o = false ->
  char_in c (sentence_fragment_delimiters o) = false ->
  let r := process_char rt g s c in
  (yielded r = [] /\ (raised r = None -> quiet o (after r) (seen ++ [c])))
  \/ (exists t tl, yielded r = (Commit, t) :: tl)
  \/ (yielded r = [(QuickYield, clean rt o (lstrip (seen ++ [c])))]
      /\ isspace c = true
      /\ (force_first_fragment_after_words o <= count_spaces (seen ++ [c]))%Z
      /\ lstrip (seen ++ [c]) <> []).
Proof.
  intros Hq Hf Hd r. subst r.
  pose proof (quiet_appended o s seen c Hq Hd) as Hq2.
  destruct Hq as (Hc & Hb & Hw & Hfirst).
  destruct Hq2 as (Hc2 & Hb2 & Hw2 & Hfirst2).
  destruct (process_char_cases rt g s c)
    as [(_ & Hf' & _) | [(_ & _ & _ & [[_ E] | (l & Hl & Hy & E)]) | E]];
    rewrite ?Hc in *.
  - congruence.
  - left. rewrite E. split; [reflexivity | discriminate].
  - right. right. rewrite E. unfold quick_yield. simpl.
    rewrite appended_config, Hc, Hb2.
    rewrite Hb2 in Hl. pose proof (last_char_snoc _ _ _ Hl) as ->.
    destruct Hy as [Hy | [Hs Hy]]; [congruence|].
    repeat split; auto; [now rewrite <- Hw2|].
    intros En. rewrite En in Hl. discriminate Hl.
  - rewrite E.
    pose proof (analyse_cases rt g (appended s c) c) as Ha. cbv zeta in Ha.
    rewrite Hc2 in Ha.
    destruct Ha as [[_ ->] | [_ [(e & _ & ->) | (tokens & _ & [-> | H])]]].
    + left. split; [reflexivity|]. intros _. simpl. repeat split; auto.
    + left. split; [reflexivity | discriminate].
    + left. split; [reflexivity|]. intros _. simpl.
      apply quiet_set_if_delimiter. repeat split; auto.
    + right. left. destruct H as (_ & Hlen & _ & -> & _).
      destruct (removelast_nonempty _ _ Hlen) as (x & tl & ->).
      simpl. eauto.
Qed.

(** While fewer than the ceiling of whitespace characters were read, no
    first fragment is forced. *)
Lemma feed_quiet (g : globals) (o : options) (pre : text) :
  filter_first_non_alnum_characters o = false ->
  forall (s : SentenceSplitter) (seen : text),
    quiet o s seen ->
    no_soft_delimiter o pre ->
    (count_spaces (seen ++ pre) < force_first_fragment_after_words o)%Z ->
    let r := feed rt g s pre in
    (yielded r = [] /\ (raised r = None -> quiet o (after r) (seen ++ pre)))
    \/ exists t tl, yielded r = (Commit, t) :: tl.
Proof.
  intros Hf. induction pre as [|c pre IH]; intros s seen Hq Hns Hcount; simpl.
  - left. split; [reflexivity|]. intros _. now rewrite app_nil_r.
  - assert (Hd : char_in c (sentence_fragment_delimiters o) = false)
      by (apply Hns; now left).
    assert (Hns' : no_soft_delimiter o pre)
      by (intros x Hx; apply Hns; now right).
    assert (Hcount' : (count_spaces ((seen ++ [c]) ++ pre)
                       < force_first_fragment_after_words o)%Z)
      by (now rewrite <- app_assoc).
    destruct (process_char_quiet g o s seen c Hq Hf Hd)
      as [[Hy Hk] | [(t & tl & Hy) | (_ & _ & Hw & _)]].
    + unfold and_then. destruct (raised (process_char rt g s c)) eqn:Er.
      * left. split; [exact Hy | rewrite Er; discriminate].
      * simpl. rewrite Hy. simpl.
        specialize (IH _ _ (Hk eq_refl) Hns' Hcount').
        rewrite <- app_assoc in IH. exact IH.
    + right. unfold and_then.
      destruct (raised (process_char rt g s c)); [eauto|].
      simpl. rewrite Hy. simpl. eauto.
    + exfalso. rewrite count_spaces_app in Hcount'.
      pose proof (count_spaces_nonneg pre). lia.
Qed.

(** At the whitespace character that brings the count to the ceiling, with
    the buffer already longer than the first-fragment minimum, the first
    fragment is yielded (or the empty buffer raises). *)
Lemma process_char_forced (g : globals) (o : options) (s : SentenceSplitter)
      (seen : text) (w : char) :
  quiet o s seen ->
  filter_first_non_alnum_characters o = false ->
  quick_yield_single_sentence_fragment o = true ->
  isspace w = true ->
  (force_first_fragment_after_words o <= count_spaces (seen ++ [w]))%Z ->
  (minimum_first_fragment_length o < len (lstrip (seen ++ [w])))%Z ->
  let r := process_char rt g s w in
  (yielded r = [] /\ raised r <> None)
  \/ (yielded r = [(QuickYield, clean rt o (lstrip (seen ++ [w])))]
      /\ lstrip (seen ++ [w]) <> []).
Proof.
  intros (Hc & Hb & Hw & Hfirst) Hf Hquick Hs Hcount Hgate r. subst r.
  unfold process_char. rewrite Hc, Hf, andb_false_r. simpl.
  rewrite Hs. simpl. rewrite Hfirst, Hquick, Hb, lstrip_lstrip_app, Hw.
  destruct (Z.ltb_spec (minimum_first_fragment_length o)
                       (len (lstrip (seen ++ [w])))); [|lia].
  simpl. destruct (last_char (lstrip (seen ++ [w]))) as [l|e] eqn:El.
  - replace (count_spaces seen + 1)%Z with (count_spaces (seen ++ [w]))
      by (rewrite count_spaces_app, count_spaces_one, Hs; reflexivity).
    destruct (Z.leb_spec (force_first_fragment_after_words o)
                         (count_spaces (seen ++ [w]))); [|lia].
    rewrite orb_true_r. right. unfold quick_yield. simpl. rewrite Hc.
    split; [reflexivity|]. intros En. rewrite En in El. discriminate El.
  - left. simpl. split; [reflexivity | discriminate].
Qed.

(** C3 (amended): with quick yield on, no first-character filter, and no
    soft delimiter up to the whitespace character [w] that is the
    [force_first_fragment_after_words]-th whitespace character of the input,
    if the buffer is by then longer than [minimum_first_fragment_length],
    then a first emitted unit that is a quick-yield fragment is the cleaned
    input up to [w] and has at most [force_first_fragment_after_words]
    whitespace-delimited words. *)
Theorem first_fragment_word_cap
        (g : globals) (generator : list text) (o : options)
        (pre : text) (w : char) (post : text)
        (where_from : site) (u : text) (rest : list emission) :
  quick_yield_single_sentence_fragment o = true ->
  filter_first_non_alnum_characters o = false ->
  concat generator = pre ++ w :: post ->
  no_soft_delimiter o (pre ++ [w]) ->
  isspace w = true ->
  count_spaces (pre ++ [w]) = force_first_fragment_after_words o ->
  (minimum_first_fragment_length o < len (lstrip (pre ++ [w])))%Z ->
  fst (snd (generate_sentences rt g generator o)) = (where_from, u) :: rest ->
  where_from = QuickYield ->
  u = clean rt o (lstrip (pre ++ [w]))
  /\ (word_count_of u <= force_first_fragment_after_words o)%Z.
Proof.
  intros Hquick Hf Hcat Hns Hs Hcount Hgate Hout ->.
  set (o' := adjust_flags o).
  set (g' := fst (fst (__init__ rt g o))).
  assert (Hq0 : quiet o' (snd (__init__ rt g o)) [])
    by (rewrite init_splitter; repeat split).
  assert (Hquick' : quick_yield_single_sentence_fragment o' = true)
    by (simpl; rewrite Hquick; apply orb_true_r).
  assert (Hns1 : no_soft_delimiter o' pre)
    by (intros x Hx; apply (Hns x), in_or_app; now left).
  assert (Hlt : (count_spaces ([] ++ pre)
                 < force_first_fragment_after_words o')%Z).
  { simpl. rewrite <- Hcount, count_spaces_app, count_spaces_one, Hs. lia. }
  rewrite generate_sentences_run, Hcat in Hout. fold g' in Hout.
  unfold feed_then_flush in Hout.
  change (pre ++ w :: post) with (pre ++ [w] ++ post) in Hout.
  rewrite feed_app in Hout.
  pose proof (feed_quiet g' o' pre Hf _ [] Hq0 Hns1 Hlt) as Hpre.
  cbv zeta in Hpre. simpl app in Hpre.
  set (r1 := feed rt g' (snd (__init__ rt g o)) pre) in *.
  destruct Hpre as [[Hy Hk] | (t & tl & Hy)].
  2:{ destruct (then_flush_first rt g' r1
                  (fun s' => feed rt g' s' ([w] ++ post)) _ _ Hy) as [tl' E].
      rewrite E in Hout. discriminate Hout. }
  destruct (raised r1) as [e|] eqn:Er1.
  { rewrite (then_flush_raised rt g' r1 _ e Er1), Hy in Hout.
    discriminate Hout. }
  rewrite (then_flush_silent rt g' r1 _ Hy Er1) in Hout. simpl feed in Hout.
  assert (Hcount' : (force_first_fragment_after_words o'
                     <= count_spaces (pre ++ [w]))%Z)
    by (simpl; lia).
  destruct (process_char_forced g' o' (after r1) pre w (Hk eq_refl) Hf Hquick'
                                Hs Hcount' Hgate) as [[Hy2 Hr2] | [Hy2 Hne]].
  - destruct (raised (process_char rt g' (after r1) w)) as [e|] eqn:Er2;
      [|congruence].
    rewrite (then_flush_raised rt g' _ _ e Er2), Hy2 in Hout.
    discriminate Hout.
  - destruct (then_flush_first rt g' _ (fun s' => feed rt g' s' post) _ _ Hy2)
      as [tl' E].
    rewrite E in Hout. injection Hout as <- _.
    split; [reflexivity|].
    pose proof (words_of_spaced_buffer pre w Hs Hne) as Hwords.
    pose proof (count_words_subtext _ _
                  (subtext_clean_text (is_emoji rt) (lstrip (pre ++ [w]))
                     (cleanup_text_links o') (cleanup_text_emojis o') true)
                  false) as Hsub.
    unfold clean, word_count_of in *. simpl in Hcount'. lia.
Qed.

End QuickYield.

Lemma first_fragment_word_cap_witness :
  (word_count_of (str "one two three") <= 3)%Z.
Proof.
  refine (proj2 (first_fragment_word_cap
            test_runtime module_globals
            [str "one two three four five six seven eight nine ten"]
            (example_options 10 true 3 false "nltk" (Some simple_tokenize))
            (str "one two three") 32%N
            (str "four five six seven eight nine ten")
            QuickYield (str "one two three")
            [(FlushFull, str "four five six seven eight nine ten")]
            eq_refl eq_refl eq_refl _ eq_refl eq_refl _ _ eq_refl)).
  - intros c Hc. simpl in Hc.
    repeat (destruct Hc as [<- | Hc]; [reflexivity|]). contradiction.
  - vm_compute. reflexivity.
  - vm_compute. reflexivity.
Defined.

(** C3 (as stated) fails: the first fragment is not yielded before the
    buffer is longer than [minimum_first_fragment_length].  With a ceiling of
    one word and the default minimum of ten characters, the input
    ["a b c d e f g h "] has ["a b c d e f"], six words, as its first
    unit. *)
Lemma first_fragment_exceeds_word_cap :
  ~ (forall (o : options) (generator : list text) (where_from : site)
            (u : text) (rest : list emission),
        quick_yield_single_sentence_fragment o = true ->
        no_soft_delimiter o (concat generator) ->
        fst (snd (generate_sentences test_runtime module_globals generator o))
        = (where_from, u) :: rest ->
        (word_count_of u <= force_first_fragment_after_words o)%Z).
Proof.
  intros H.
  specialize (H (example_options 10 true 1 false "nltk" (Some simple_tokenize))
                [str "a b c d e f g h "] QuickYield (str "a b c d e f")
                [(FlushRest, str "g h")] eq_refl).
  assert (Hns : no_soft_delimiter
                  (example_options 10 true 1 false "nltk"
                                   (Some simple_tokenize))
                  (concat [str "a b c d e f g h "])).
  { intros c Hc. simpl in Hc.
    repeat (destruct Hc as [<- | Hc]; [reflexivity|]). contradiction. }
  specialize (H Hns eq_refl). vm_compute in H. apply H. reflexivity.
Qed.

(** ** No text is lost *)

Lemma squash_app (a b : text) : squash (a ++ b) = squash a ++ squash b.
Proof. apply filter_app. Qed.

Lemma squash_drop_spaces (t : text) : squash (drop_while isspace t) = squash t.
Proof.
  induction t as [|c r IH]; simpl; [reflexivity|].
  destruct (isspace c) eqn:E; simpl; [exact IH | now rewrite E].
Qed.

Lemma squash_lstrip (t : text) : squash (lstrip t) = squash t.
Proof. apply squash_drop_spaces. Qed.

Lemma squash_rstrip (t : text) : squash (rstrip t) = squash t.
Proof.
  unfold rstrip, squash. rewrite filter_rev.
  fold (squash (drop_while isspace (rev t))).
  rewrite squash_drop_spaces. unfold squash.
  now rewrite filter_rev, rev_involutive.
Qed.

Lemma squash_strip (t : text) : squash (strip t) = squash t.
Proof. unfold strip. now rewrite squash_rstrip, squash_lstrip. Qed.


Lemma nonempty_false (t : text) : nonempty t = false -> t = [].
Proof. destruct t; [reflexivity | discriminate]. Qed.

(** The merge pass keeps the text of the sentences and of the carry. *)
Lemma combine_sentences_squash (min : Z) (tokens : list text) (temp : text) :
  squash (concat (combine_sentences min temp tokens))
  = squash temp ++ squash (concat tokens).
Proof.
  revert temp. induction tokens as [|s rest IH]; intros temp; simpl.
  - destruct (nonempty temp) eqn:E; simpl.
    + now rewrite !app_nil_r, squash_strip.
    + now rewrite (nonempty_false _ E).
  - destruct (len s <? min)%Z.
    + rewrite IH, !squash_app. simpl. now rewrite app_nil_r, <- app_assoc.
    + destruct (nonempty temp) eqn:E; simpl.
      * rewrite !squash_app, squash_strip, IH, squash_app. simpl.
        now rewrite <- app_assoc.
      * rewrite (nonempty_false _ E), !squash_app, squash_strip, IH.
        reflexivity.
Qed.


Lemma count_quick_yields_app (a b : list emission) :
  count_quick_yields (a ++ b) = count_quick_yields a + count_quick_yields b.
Proof. unfold count_quick_yields. now rewrite filter_app, length_app. Qed.

Lemma count_quick_yields_none (l : list emission) :
  Forall (fun e => fst e <> QuickYield) l -> count_quick_yields l = 0.
Proof.
  unfold count_quick_yields. induction 1 as [|[[] t] l H _ IH]; simpl; auto.
  now contradiction H.
Qed.







Section NoLoss.

Variable rt : runtime.









Lemma and_then_finished (r : run) (k : SentenceSplitter -> run) :
  raised (and_then r k) = None ->
  raised r = None /\ raised (k (after r)) = None
  /\ yielded (and_then r k) = yielded r ++ yielded (k (after r))
  /\ after (and_then r k) = after (k (after r)).
Proof.
  unfold and_then. destruct (raised r) eqn:E; simpl.
  - congruence.
  - auto.
Qed.


End NoLoss.



Section NoLossRun.

Variable rt : runtime.



End NoLossRun.







(** The comparison is up to whitespace for a reason: when a sentence is
    committed, the buffer is set to the last sentence as the tokenizer
    returned it, right-trimmed, and only a trailing space is put back.  A tab
    that was the last character read is gone, and the two words around it
    are delivered as one. *)
Example whitespace_before_commit_not_restored :
  snd (generate_sentences test_runtime module_globals
         [str "This is a long first sentence. Second one" ++ [9%N]
          ++ str "and more"] simple_options)
  = ([(Commit, str "This is a long first sentence.");
      (FlushFull, str "Second oneand more")], None).
Proof. vm_compute. reflexivity. Qed.

(** * Further properties *)

(** ** The input queue *)

Section QueueFacts.

Variable rt : runtime.

Lemma set_input_buffer_same (s : SentenceSplitter) :
  set_input_buffer s (input_buffer s) = s.
Proof. now destruct s. Qed.

(** The loop body never reads the queue. *)
Lemma analyse_queue (g : globals) (s : SentenceSplitter) (q : list text)
      (c : char) :
  analyse rt g (set_input_buffer s q) c = with_queue q (analyse rt g s c).
Proof.
  unfold analyse, with_queue, done, raising.
  cbn [config buffer set_input_buffer].
  destruct (len (buffer s) <=? _)%Z; [reflexivity|].
  destruct (char_in c (full_sentence_delimiters (config s)));
    cbn [config buffer last_delimiter_position set_input_buffer
         set_last_delimiter_position];
    (destruct (_tokenize_sentences rt g (buffer s) _); [|reflexivity]);
    (destruct (commit_condition _ _ _ _); [|reflexivity]);
    (destruct (1 <? _)%Z; [|reflexivity]);
    (destruct (_ <=? _)%Z; [|reflexivity]);
    destruct (quick_yield_for_all_sentences (config s)); reflexivity.
Qed.

Lemma quick_yield_queue (s : SentenceSplitter) (q : list text) :
  quick_yield rt (set_input_buffer s q) = with_queue q (quick_yield rt s).
Proof.
  unfold quick_yield, with_queue. cbn [config buffer set_input_buffer].
  destruct (quick_yield_every_fragment (config s)); reflexivity.
Qed.

Lemma process_char_queue (g : globals) (s : SentenceSplitter) (q : list text)
      (c : char) :
  process_char rt g (set_input_buffer s q) c
  = with_queue q (process_char rt g s c).
Proof.
  unfold process_char. cbn [config buffer set_input_buffer].
  destruct (_ && _ && negb _); [reflexivity|].
  change (set_buffer (set_input_buffer s q) (lstrip (buffer s ++ [c])))
    with (set_input_buffer (set_buffer s (lstrip (buffer s ++ [c]))) q).
  set (s1 := set_buffer s (lstrip (buffer s ++ [c]))).
  change (word_count (set_input_buffer s1 q)) with (word_count s1).
  change (set_word_count (set_input_buffer s1 q) (word_count s1 + 1))
    with (set_input_buffer (set_word_count s1 (word_count s1 + 1)) q).
  assert (E : (if isspace c || char_in c (sentence_fragment_delimiters
                                            (config s))
               then set_input_buffer (set_word_count s1 (word_count s1 + 1)) q
               else set_input_buffer s1 q)
              = set_input_buffer
                  (if isspace c || char_in c (sentence_fragment_delimiters
                                                (config s))
                   then set_word_count s1 (word_count s1 + 1) else s1) q)
    by (now destruct (_ || _)).
  rewrite E. clear E.
  set (s2 := if isspace c || char_in c (sentence_fragment_delimiters (config s))
             then set_word_count s1 (word_count s1 + 1) else s1).
  cbn [is_first_sentence buffer set_input_buffer].
  destruct (_ && _ && _).
  - destruct (last_char (buffer s2)); [|reflexivity].
    destruct (char_in _ _ || isspace c && _);
      [apply quick_yield_queue | apply analyse_queue].
  - apply analyse_queue.
Qed.

Lemma with_queue_and_then (q : list text) (r : run)
      (k k' : SentenceSplitter -> run) :
  (forall s, k (set_input_buffer s q) = with_queue q (k' s)) ->
  and_then (with_queue q r) k = with_queue q (and_then r k').
Proof.
  intros H. unfold and_then, with_queue. simpl.
  destruct (raised r) eqn:E; [now rewrite E|]. rewrite H. reflexivity.
Qed.

Lemma feed_queue (g : globals) (q : list text) (chunk : text)
      (s : SentenceSplitter) :
  feed rt g (set_input_buffer s q) chunk = with_queue q (feed rt g s chunk).
Proof.
  revert s. induction chunk as [|c rest IH]; intros s; simpl; [reflexivity|].
  rewrite process_char_queue. apply with_queue_and_then. exact IH.
Qed.

Lemma with_queue_twice (q q' : list text) (r : run) :
  with_queue q (with_queue q' r) = with_queue q r.
Proof. reflexivity. Qed.

(** Up to the queue left behind, [stream] is [feed] on the concatenation of
    the queued chunks. *)
Lemma stream_queue_feed (g : globals) (queue : list text)
      (s : SentenceSplitter) :
  with_queue [] (stream_queue rt g s queue)
  = with_queue [] (feed rt g s (concat queue)).
Proof.
  revert s. induction queue as [|chunk rest IH]; intros s; simpl;
    [reflexivity|].
  rewrite feed_queue, feed_app. unfold and_then. simpl.
  destruct (raised (feed rt g s chunk)); [reflexivity|].
  specialize (IH (set_input_buffer (after (feed rt g s chunk)) rest)).
  rewrite feed_queue, with_queue_twice in IH.
  pose proof (f_equal yielded IH) as H1.
  pose proof (f_equal after IH) as H2.
  pose proof (f_equal raised IH) as H3.
  unfold with_queue in *. simpl in *. now rewrite H1, H2, H3.
Qed.

Lemma stream_queue_drained (g : globals) (queue : list text)
      (s : SentenceSplitter) :
  input_buffer s = queue ->
  raised (stream_queue rt g s queue) = None ->
  input_buffer (after (stream_queue rt g s queue)) = [].
Proof.
  revert s. induction queue as [|chunk rest IH]; intros s Hs; simpl;
    [intros _; exact Hs|].
  intros H. apply and_then_finished in H as (_ & H2 & _ & ->).
  apply IH; [|exact H2]. now rewrite feed_input_buffer.
Qed.

Lemma feed_queue_raised (g : globals) (q : list text) (chunk : text)
      (s : SentenceSplitter) :
  raised (feed rt g (set_input_buffer s q) chunk)
  = raised (feed rt g s chunk).
Proof. now rewrite feed_queue. Qed.

Lemma feed_queue_after (g : globals) (q : list text) (chunk : text)
      (s : SentenceSplitter) :
  after (feed rt g (set_input_buffer s q) chunk)
  = set_input_buffer (after (feed rt g s chunk)) q.
Proof. now rewrite feed_queue. Qed.

Lemma feed_app_finished (g : globals) (a b : text) (s : SentenceSplitter) :
  raised (feed rt g s a) = None ->
  raised (feed rt g s (a ++ b)) = raised (feed rt g (after (feed rt g s a)) b)
  /\ after (feed rt g s (a ++ b)) = after (feed rt g (after (feed rt g s a)) b)
  /\ yielded (feed rt g s (a ++ b))
     = yielded (feed rt g s a)
       ++ yielded (feed rt g (after (feed rt g s a)) b).
Proof.
  intros H. rewrite feed_app. unfold and_then. rewrite H. auto.
Qed.

Lemma feed_app_raised (g : globals) (a b : text) (s : SentenceSplitter)
      (e : exn) :
  raised (feed rt g s a) = Some e -> feed rt g s (a ++ b) = feed rt g s a.
Proof. intros H. rewrite feed_app. unfold and_then. now rewrite H. Qed.

(** When the loop over the queue ends with an exception: the chunks before
    the one that raised were read to their end, and the chunks after it are
    what the queue still holds. *)
Lemma stream_queue_raised (g : globals) (queue : list text)
      (s : SentenceSplitter) (e : exn) :
  raised (stream_queue rt g s queue) = Some e ->
  exists before failing rest,
    queue = before ++ failing :: rest
    /\ raised (feed rt g s (concat before)) = None
    /\ raised (feed rt g (after (feed rt g s (concat before))) failing)
       = Some e
    /\ input_buffer (after (stream_queue rt g s queue)) = rest.
Proof.
  revert s. induction queue as [|chunk rest IH]; intros s; simpl;
    [discriminate|].
  unfold and_then.
  destruct (raised (feed rt g (set_input_buffer s rest) chunk)) eqn:E.
  - intros H. exists [], chunk, rest. simpl.
    rewrite feed_queue_raised in H. rewrite feed_input_buffer.
    repeat split; assumption.
  - simpl. intros H.
    destruct (IH _ H) as (before & failing & rest' & -> & H1 & H2 & Hq).
    rewrite feed_queue_raised in E.
    rewrite feed_queue_after in H1, H2.
    rewrite feed_queue_raised in H1.
    rewrite feed_queue_after, feed_queue_raised in H2.
    destruct (feed_app_finished g chunk (concat before) s E)
      as (Hr & Ha & _).
    exists (chunk :: before), failing, rest'. simpl.
    rewrite Hr, Ha. auto.
Qed.

Lemma add_all_queue (chunks : list text) (s : SentenceSplitter) :
  add_all s chunks = set_input_buffer s (input_buffer s ++ chunks).
Proof.
  unfold add_all. revert s.
  induction chunks as [|c rest IH]; intros s; simpl.
  - now rewrite app_nil_r, set_input_buffer_same.
  - rewrite IH. unfold add, set_input_buffer. simpl.
    now rewrite <- app_assoc.
Qed.

Lemma generate_sentences_whole (g : globals) (generator : list text)
      (o : options) :
  generate_sentences rt g generator o
  = (fst (__init__ rt g o),
     feed_then_flush rt (fst (fst (__init__ rt g o))) (snd (__init__ rt g o))
                     (concat generator)).
Proof.
  rewrite <- generate_sentences_run. unfold generate_sentences,
    generate_sentences_async.
  destruct (__init__ rt g o) as [[g' logs] s]. reflexivity.
Qed.

(** X1: the sentences (and the ending) of [generate_sentences] depend on the
    fragments only through their concatenation: however the same text is cut
    into chunks, empty chunks included, the result is the same. *)
Theorem fragment_boundaries_do_not_matter
        (g : globals) (first second : list text) (o : options) :
  concat first = concat second ->
  generate_sentences rt g first o = generate_sentences rt g second o.
Proof. intros H. now rewrite !generate_sentences_whole, H. Qed.

(** X2: chunks added one after the other to a splitter with an empty queue
    and then streamed in one call yield what the characters of their
    concatenation yield when read in one piece, end the same way, and, when
    nothing is raised, leave the same object with the queue empty again. *)
Theorem stream_reads_queue_as_one_text
        (g : globals) (s : SentenceSplitter) (chunks : list text) :
  input_buffer s = [] ->
  let r := stream rt g (add_all s chunks) in
  yielded r = yielded (feed rt g s (concat chunks))
  /\ raised r = raised (feed rt g s (concat chunks))
  /\ (raised r = None ->
      after r = after (feed rt g s (concat chunks))
      /\ input_buffer (after r) = []).
Proof.
  intros Hs r. subst r. rewrite add_all_queue, Hs. simpl app.
  unfold stream. cbn [input_buffer set_input_buffer].
  pose proof (stream_queue_feed g chunks (set_input_buffer s chunks)) as H.
  rewrite feed_queue, with_queue_twice in H.
  pose proof (f_equal yielded H) as H1.
  pose proof (f_equal raised H) as H3.
  pose proof (f_equal after H) as H2.
  unfold with_queue in H1, H2, H3. simpl in H1, H2, H3.
  split; [exact H1|]. split; [exact H3|]. intros Hr.
  pose proof (stream_queue_drained g chunks (set_input_buffer s chunks)
                                   eq_refl Hr) as Hd.
  split; [|exact Hd].
  rewrite <- (set_input_buffer_same (after (stream_queue rt g _ chunks))), Hd.
  rewrite H2.
  rewrite <- (set_input_buffer_same (after (feed rt g s (concat chunks)))) at 2.
  now rewrite feed_input_buffer, Hs.
Qed.

(** X3: when [stream] ends with an exception, exactly the chunks up to the
    one being read have left the queue.  The queue was [before], then the
    chunk [failing], then [rest], where the chunks of [before] were read to
    their end without an exception and reading [failing] after them raised
    the exception; [stream] yielded what reading [before] and [failing]
    yields, and the queue is left as [rest]: the unread part of [failing] is
    not put back. *)
Theorem stream_exception_keeps_later_chunks
        (g : globals) (s : SentenceSplitter) (e : exn) :
  raised (stream rt g s) = Some e ->
  exists before failing rest,
    input_buffer s = before ++ failing :: rest
    /\ raised (feed rt g s (concat before)) = None
    /\ raised (feed rt g (after (feed rt g s (concat before))) failing)
       = Some e
    /\ yielded (stream rt g s)
       = yielded (feed rt g s (concat before ++ failing))
    /\ input_buffer (after (stream rt g s)) = rest.
Proof.
  intros H. unfold stream in *.
  destruct (stream_queue_raised g (input_buffer s) s e H)
    as (before & failing & rest & Hq & H1 & H2 & H3).
  exists before, failing, rest. repeat split; try assumption.
  pose proof (f_equal yielded (stream_queue_feed g (input_buffer s) s)) as Hy.
  unfold with_queue in Hy. simpl in Hy. rewrite Hy, Hq.
  rewrite concat_app. simpl. rewrite app_assoc.
  destruct (feed_app_finished g (concat before) failing s H1) as (Hr & _ & _).
  rewrite H2 in Hr. now rewrite (feed_app_raised g _ (concat rest) s e Hr).
Qed.

End QueueFacts.

Lemma fragment_boundaries_do_not_matter_witness :
  generate_sentences test_runtime module_globals
    [str "Hello there. "; str "How are you? "] simple_options
  = generate_sentences test_runtime module_globals
      [str "Hello "; []; str "there. How are"; str " you? "] simple_options.
Proof.
  apply (fragment_boundaries_do_not_matter test_runtime). reflexivity.
Defined.

Lemma stream_reads_queue_as_one_text_witness :
  yielded (stream test_runtime module_globals
             (add_all (new_splitter test_runtime simple_options)
                      [str "This is the first sentence. ";
                       str "Then we continue here."]))
  = yielded (feed test_runtime module_globals
               (new_splitter test_runtime simple_options)
               (concat [str "This is the first sentence. ";
                        str "Then we continue here."])).
Proof.
  exact (proj1 (stream_reads_queue_as_one_text
                  test_runtime module_globals
                  (new_splitter test_runtime simple_options)
                  [str "This is the first sentence. ";
                   str "Then we continue here."] eq_refl)).
Defined.

Lemma stream_exception_keeps_later_chunks_witness :
  exists before failing rest,
    [str "Hello. "; str "This sentence is long enough to be analysed. ";
     str "And more."]
    = before ++ failing :: rest
    /\ raised (feed test_runtime unknown_tokenizer_globals
                    (new_splitter test_runtime
                       (example_options 10 false 30 false "spacy" None))
                    (concat before))
       = None
    /\ raised (feed test_runtime unknown_tokenizer_globals
                    (after (feed test_runtime unknown_tokenizer_globals
                              (new_splitter test_runtime
                                 (example_options 10 false 30 false
                                                  "spacy" None))
                              (concat before)))
                    failing)
       = Some (ValueError "Unknown tokenizer: spacy")
    /\ input_buffer
         (after (stream test_runtime unknown_tokenizer_globals
                        (add_all (new_splitter test_runtime
                                    (example_options 10 false 30 false
                                                     "spacy" None))
                                 [str "Hello. ";
                                  str "This sentence is long enough to be analysed. ";
                                  str "And more."])))
       = rest.
Proof.
  destruct (stream_exception_keeps_later_chunks
              test_runtime unknown_tokenizer_globals
              (add_all (new_splitter test_runtime
                          (example_options 10 false 30 false "spacy" None))
                       [str "Hello. ";
                        str "This sentence is long enough to be analysed. ";
                        str "And more."])
              (ValueError "Unknown tokenizer: spacy") eq_refl)
    as (before & failing & rest & Hq & H1 & H2 & _ & H3).
  exists before, failing, rest.
  rewrite add_all_queue, !feed_queue_raised, feed_queue_after,
    feed_queue_raised in *.
  auto.
Defined.

(** ** What is yielded *)

Lemma strip_stripped (t : text) : stripped (strip t).
Proof.
  split; [apply lstrip_rstrip_lstrip | unfold strip; apply rstrip_idem].
Qed.

Lemma subtext_length (a b : text) : subtext a b -> length a <= length b.
Proof. induction 1; simpl; lia. Qed.

Lemma subtext_same_length (a b : text) :
  subtext a b -> length a = length b -> a = b.
Proof.
  induction 1 as [|c a b _ IH|c a b H _]; simpl; intros E.
  - reflexivity.
  - f_equal. apply IH. lia.
  - apply subtext_length in H. lia.
Qed.

Lemma strip_length (t : text) : length (strip t) <= length t.
Proof. apply subtext_length, subtext_strip. Qed.

Lemma rstrip_snoc_space (t : text) (c : char) :
  isspace c = true -> rstrip (t ++ [c]) = rstrip t.
Proof.
  intros H. unfold rstrip. rewrite rev_app_distr. simpl. now rewrite H.
Qed.

Lemma lstrip_snoc_length (t : text) (c : char) :
  isspace c = true -> length (rstrip (lstrip (t ++ [c]))) <= length t.
Proof.
  intros H. unfold lstrip. induction t as [|x t IH]; simpl.
  - rewrite H. simpl. lia.
  - destruct (isspace x); [lia|].
    change (x :: t ++ [c]) with ((x :: t) ++ [c]).
    rewrite rstrip_snoc_space by exact H.
    destruct (rstrip_prefix (x :: t)) as [b Hb].
    apply (f_equal (@length char)) in Hb. rewrite length_app in Hb.
    simpl in Hb. lia.
Qed.

Lemma strip_snoc_space (t : text) (c : char) :
  isspace c = true -> length (strip (t ++ [c])) <= length t.
Proof. apply lstrip_snoc_length. Qed.

Section EmissionFacts.

Variable rt : runtime.

Lemma clean_stripped (o : options) (x : text) : stripped (clean rt o x).
Proof. unfold clean, _clean_text. apply strip_stripped. Qed.

(** A text that ends with a whitespace character loses at least that
    character when cleaned. *)
Lemma clean_snoc_space (o : options) (x : text) (c : char) :
  isspace c = true -> (len (clean rt o (x ++ [c])) <= len x)%Z.
Proof.
  intros Hc. unfold clean, _clean_text, len.
  set (y := x ++ [c]).
  set (z := if cleanup_text_emojis o
            then _remove_emojis (is_emoji rt)
                   (if cleanup_text_links o then _remove_links y else y)
            else if cleanup_text_links o then _remove_links y else y).
  assert (Hz : subtext z y).
  { pose proof (subtext_clean_text (is_emoji rt) y (cleanup_text_links o)
                                   (cleanup_text_emojis o) false) as H.
    exact H. }
  assert (Hy : length y = S (length x))
    by (unfold y; rewrite length_app; simpl; lia).
  destruct (Nat.eq_dec (length z) (length y)) as [E | E].
  - rewrite (subtext_same_length _ _ Hz E). unfold y.
    pose proof (strip_snoc_space x c Hc). lia.
  - pose proof (subtext_length _ _ Hz). pose proof (strip_length z). lia.
Qed.

Lemma process_char_stripped (g : globals) (s : SentenceSplitter) (c : char) :
  Forall (fun e => stripped (snd e)) (yielded (process_char rt g s c)).
Proof.
  destruct (process_char_cases rt g s c)
    as [(_ & _ & _ & E) | [(_ & _ & _ & [[_ E] | (l & _ & _ & E)]) | E]];
    rewrite E; try constructor.
  - apply clean_stripped.
  - constructor.
  - pose proof (analyse_cases rt g (appended s c) c) as Ha. cbv zeta in Ha.
    destruct Ha as [[_ ->] | [_ [(e & _ & ->) | (tokens & _ & [-> | H])]]];
      try constructor.
    destruct H as (_ & _ & _ & -> & _).
    apply Forall_forall. intros e He. apply in_map_iff in He as (x & <- & _).
    apply clean_stripped.
Qed.

Lemma feed_stripped (g : globals) (chunk : text) (s : SentenceSplitter) :
  Forall (fun e => stripped (snd e)) (yielded (feed rt g s chunk)).
Proof.
  revert s. induction chunk as [|c rest IH]; intros s; simpl; [constructor|].
  apply and_then_yielded; [apply process_char_stripped | exact IH].
Qed.

Lemma flush_sentences_stripped (o : options) (sentences : list text)
      (sentence_buffer : text) :
  Forall (fun e => stripped (snd e))
         (flush_sentences rt o sentence_buffer sentences).
Proof.
  revert sentence_buffer. induction sentences as [|x rest IH]; intros sb;
    simpl.
  - destruct (nonempty sb); constructor; [apply clean_stripped | constructor].
  - destruct (_ <? _)%Z; [apply IH|].
    constructor; [apply clean_stripped | apply IH].
Qed.

Lemma flush_stripped (g : globals) (s : SentenceSplitter) :
  Forall (fun e => stripped (snd e)) (yielded (flush rt g s)).
Proof.
  unfold flush. destruct (nonempty (buffer s)); [|constructor].
  destruct (_tokenize_sentences rt g (buffer s) _); [|constructor].
  apply flush_sentences_stripped.
Qed.

(** X4: no sentence that [generate_sentences] delivers starts or ends with a
    whitespace character, whichever yield it comes from and whatever the
    tokenizer returned. *)
Theorem delivered_sentences_are_stripped
        (g : globals) (generator : list text) (o : options) (e : emission) :
  In e (fst (snd (generate_sentences rt g generator o))) ->
  lstrip (snd e) = snd e /\ rstrip (snd e) = snd e.
Proof.
  rewrite generate_sentences_run. unfold feed_then_flush, then_flush.
  set (r := feed rt _ _ _).
  pose proof (feed_stripped (fst (fst (__init__ rt g o))) (concat generator)
                            (snd (__init__ rt g o))) as H1.
  fold r in H1. rewrite Forall_forall in H1.
  destruct (raised r); simpl; intros Hin.
  - apply (H1 _ Hin).
  - apply in_app_or in Hin as [Hin | Hin]; [apply (H1 _ Hin)|].
    pose proof (flush_stripped (fst (fst (__init__ rt g o))) (after r)) as H2.
    rewrite Forall_forall in H2. apply (H2 _ Hin).
Qed.

(** The loop of [flush]: the carry is empty, or a text shorter than the
    minimum followed by one space. *)
Lemma flush_sentences_shape (o : options) (sentences : list text) :
  forall sentence_buffer,
    sentence_buffer = []
    \/ (exists x, sentence_buffer = x ++ str " "
                  /\ (len x < minimum_sentence_length o)%Z) ->
    exists fulls rest,
      flush_sentences rt o sentence_buffer sentences = fulls ++ rest
      /\ Forall (fun e => fst e = FlushFull) fulls
      /\ (rest = []
          \/ exists t, rest = [(FlushRest, t)]
                       /\ (len t < minimum_sentence_length o)%Z).
Proof.
  induction sentences as [|s rest IH]; intros sb Hsb; simpl.
  - exists []. destruct Hsb as [-> | (x & -> & Hx)].
    + exists []. simpl. auto.
    + destruct (nonempty (x ++ str " ")) eqn:E.
      * exists [(FlushRest, clean rt o (x ++ str " "))]. simpl.
        repeat split; auto. right. eexists. split; [reflexivity|].
        apply Z.le_lt_trans with (len x); [|exact Hx].
        exact (clean_snoc_space o x 32%N eq_refl).
      * exists []. simpl. auto.
  - destruct (Z.ltb_spec (len (sb ++ s)) (minimum_sentence_length o)).
    + apply IH. right. exists (sb ++ s). auto.
    + destruct (IH [] (or_introl eq_refl)) as (fulls & tl & E & Hf & Ht).
      exists ((FlushFull, clean rt o (sb ++ s)) :: fulls), tl.
      rewrite E. simpl. repeat split; auto.
Qed.

(** X5: [flush] yields sentences that passed the length test and then at
    most one remainder, as its last item; the remainder, as yielded, is
    always shorter than [minimum_sentence_length]. *)
Theorem flush_remainder_is_last_and_short (g : globals) (s : SentenceSplitter) :
  exists fulls rest,
    yielded (flush rt g s) = fulls ++ rest
    /\ Forall (fun e => fst e = FlushFull) fulls
    /\ (rest = []
        \/ exists t, rest = [(FlushRest, t)]
                     /\ (len t < minimum_sentence_length (config s))%Z).
Proof.
  unfold flush. destruct (nonempty (buffer s)).
  - destruct (_tokenize_sentences rt g (buffer s) _) as [l|e]; simpl.
    + apply flush_sentences_shape. now left.
    + exists [], []. auto.
  - exists [], []. simpl. auto.
Qed.

End EmissionFacts.

Lemma delivered_sentences_are_stripped_witness :
  lstrip (str "Hello there.") = str "Hello there."
  /\ rstrip (str "Hello there.") = str "Hello there.".
Proof.
  apply (delivered_sentences_are_stripped
           test_runtime module_globals
           [str "  Hello there.   "; str "How are you? "] simple_options
           (FlushFull, str "Hello there.")).
  vm_compute. auto.
Defined.

(** ** Scenarios *)

(** The example options start from the defaults of the signature. *)
Example example_options_default :
  example_options 10 false 30 false "nltk" None = default_options.
Proof. reflexivity. Qed.

(** Two sentences in two fragments, defaults. *)
Example scenario_two_sentences :
  snd (generate_sentences test_runtime module_globals
         [str "Hello there. "; str "How are you? "] simple_options)
  = ([(FlushFull, str "Hello there."); (FlushFull, str "How are you?")], None).
Proof. vm_compute. reflexivity. Qed.

(** A sentence shorter than the minimum is merged into the next one. *)
Example scenario_short_sentence_merged :
  sentences_of
    (fst (snd (generate_sentences test_runtime module_globals
                 [str "Hi. "; str "This is a longer sentence now. "]
                 (example_options 20 false 30 false "nltk"
                                  (Some simple_tokenize)))))
  = [str "Hi. This is a longer sentence now."].
Proof. vm_compute. reflexivity. Qed.

(** A clause without punctuation and a ceiling of three words. *)
Example scenario_forced_first_fragment :
  sentences_of
    (fst (snd (generate_sentences test_runtime module_globals
                 [str "one two three four five six seven eight nine ten"]
                 (example_options 10 true 3 false "nltk"
                                  (Some simple_tokenize)))))
  = [str "one two three"; str "four five six seven eight nine ten"].
Proof. vm_compute. reflexivity. Qed.

(** Link removal leaves the text around the link, both spaces included. *)
Example scenario_link_removed :
  _clean_text emoticons (str "Check http://example.com now.") true false true
  = str "Check  now.".
Proof. vm_compute. reflexivity. Qed.

(** A committed sentence: the delimiter has moved into the context window. *)
Example scenario_commit :
  yielded (process_char test_runtime module_globals mid_sentence 110%N)
  = [(Commit, str "This is the first sentence.")]
  /\ buffer (after (process_char test_runtime module_globals mid_sentence
                                 110%N))
     = str "Then we con".
Proof. vm_compute. split; reflexivity. Qed.

(** ** First fragments and exceptions *)

Section FirstFragments.

Variable rt : runtime.

Lemma analyse_sites (g : globals) (s : SentenceSplitter) (c : char) :
  Forall (fun e => fst e <> QuickYield) (yielded (analyse rt g s c)).
Proof.
  pose proof (analyse_cases rt g s c) as Ha. cbv zeta in Ha.
  destruct Ha as [[_ ->] | [_ [(e & _ & ->) | (tokens & _ & [-> | H])]]];
    try constructor.
  destruct H as (_ & _ & _ & -> & _).
  apply Forall_forall. intros e He. apply in_map_iff in He as (x & <- & _).
  discriminate.
Qed.

Lemma analyse_first (g : globals) (s : SentenceSplitter) (c : char) :
  is_first_sentence (after (analyse rt g s c)) = is_first_sentence s
  \/ (quick_yield_for_all_sentences (config s) = true
      /\ is_first_sentence (after (analyse rt g s c)) = true).
Proof.
  unfold analyse.
  destruct (len (buffer s) <=? _)%Z; [now left|].
  set (s1 := if char_in c _ then _ else s).
  assert (H1 : is_first_sentence s1 = is_first_sentence s)
    by (unfold s1; now destruct (char_in c _)).
  destruct (_tokenize_sentences rt g (buffer s1) _); [|now left].
  destruct (commit_condition _ _ _ _); [|now left].
  destruct (1 <? _)%Z; [|now left].
  destruct (_ <=? _)%Z; [|now left].
  simpl. destruct (quick_yield_for_all_sentences (config s)); simpl; auto.
Qed.

(** One character: either no first fragment is yielded and the flag stays
    or is re-armed by a commit under "all sentences", or exactly one is
    yielded, which takes the flag and the "single fragment" switch, and the
    flag afterwards is the "every fragment" switch. *)
Lemma process_char_first (g : globals) (s : SentenceSplitter) (c : char) :
  let r := process_char rt g s c in
  (count_quick_yields (yielded r) = 0
   /\ (is_first_sentence (after r) = is_first_sentence s
       \/ (quick_yield_for_all_sentences (config s) = true
           /\ is_first_sentence (after r) = true)))
  \/ (count_quick_yields (yielded r) = 1
      /\ is_first_sentence s = true
      /\ quick_yield_single_sentence_fragment (config s) = true
      /\ is_first_sentence (after r)
         = quick_yield_every_fragment (config s)).
Proof.
  cbv zeta.
  destruct (process_char_cases rt g s c)
    as [(_ & _ & _ & E) | [(H1 & _ & H3 & [[_ E] | (l & _ & _ & E)]) | E]];
    rewrite E.
  - left. auto.
  - left. simpl. rewrite appended_first. auto.
  - right. unfold quick_yield. simpl. rewrite appended_config.
    repeat split; auto.
    destruct (quick_yield_every_fragment (config s)); simpl;
      [now rewrite appended_first | reflexivity].
  - left. split; [apply count_quick_yields_none, analyse_sites|].
    pose proof (analyse_first g (appended s c) c) as H.
    now rewrite appended_config, appended_first in H.
Qed.

Lemma and_then_cases (r : run) (k : SentenceSplitter -> run) :
  (raised r <> None /\ and_then r k = r)
  \/ (raised r = None
      /\ yielded (and_then r k) = yielded r ++ yielded (k (after r))
      /\ after (and_then r k) = after (k (after r))
      /\ raised (and_then r k) = raised (k (after r))).
Proof.
  unfold and_then. destruct (raised r) eqn:E.
  - left. split; [discriminate | reflexivity].
  - right. auto.
Qed.

Lemma feed_disarmed (g : globals) (o : options) (chunk : text) :
  quick_yield_for_all_sentences o = false ->
  forall s,
    config s = o -> is_first_sentence s = false ->
    count_quick_yields (yielded (feed rt g s chunk)) = 0
    /\ is_first_sentence (after (feed rt g s chunk)) = false.
Proof.
  intros Hall. induction chunk as [|c rest IH]; intros s Hc Hf; simpl;
    [auto|].
  destruct (process_char_first g s c)
    as [(Hn & [Hs | (Ha & _)]) | (_ & Ht & _)]; rewrite ?Hc in *;
    try congruence.
  destruct (and_then_cases (process_char rt g s c)
                           (fun s' => feed rt g s' rest))
    as [(_ & ->) | (_ & -> & -> & _)].
  - split; [exact Hn | congruence].
  - destruct (IH (after (process_char rt g s c))) as [H1 H2];
      [now rewrite process_char_config | congruence |].
    rewrite count_quick_yields_app, Hn, H1. auto.
Qed.

Lemma feed_at_most_one (g : globals) (o : options) (chunk : text) :
  quick_yield_for_all_sentences o = false ->
  quick_yield_every_fragment o = false ->
  forall s, config s = o ->
            count_quick_yields (yielded (feed rt g s chunk)) <= 1.
Proof.
  intros Hall Hevery. induction chunk as [|c rest IH]; intros s Hc; simpl;
    [unfold count_quick_yields; simpl; lia|].
  assert (Hc' : config (after (process_char rt g s c)) = o)
    by (now rewrite process_char_config).
  destruct (and_then_cases (process_char rt g s c)
                           (fun s' => feed rt g s' rest))
    as [(_ & ->) | (_ & -> & _)];
    destruct (process_char_first g s c) as [(Hn & _) | (Hn & _ & _ & Hf)];
    rewrite ?count_quick_yields_app, ?Hn; try lia.
  - specialize (IH _ Hc'). lia.
  - rewrite Hc, Hevery in Hf.
    destruct (feed_disarmed g o rest Hall _ Hc' Hf) as [-> _]. lia.
Qed.

Lemma feed_none_when_off (g : globals) (o : options) (chunk : text) :
  quick_yield_single_sentence_fragment o = false ->
  forall s, config s = o ->
            count_quick_yields (yielded (feed rt g s chunk)) = 0.
Proof.
  intros Hoff. induction chunk as [|c rest IH]; intros s Hc; simpl;
    [reflexivity|].
  assert (Hc' : config (after (process_char rt g s c)) = o)
    by (now rewrite process_char_config).
  destruct (process_char_first g s c) as [(Hn & _) | (_ & _ & Hs & _)];
    [|congruence].
  destruct (and_then_cases (process_char rt g s c)
                           (fun s' => feed rt g s' rest))
    as [(_ & ->) | (_ & -> & _)]; [exact Hn|].
  now rewrite count_quick_yields_app, Hn, (IH _ Hc').
Qed.

Lemma feed_stays_first (g : globals) (o : options) (chunk : text) :
  quick_yield_every_fragment o = true ->
  forall s, config s = o -> is_first_sentence s = true ->
            is_first_sentence (after (feed rt g s chunk)) = true.
Proof.
  intros Hevery. induction chunk as [|c rest IH]; intros s Hc Hf; simpl;
    [exact Hf|].
  assert (Hc' : config (after (process_char rt g s c)) = o)
    by (now rewrite process_char_config).
  assert (Hf' : is_first_sentence (after (process_char rt g s c)) = true).
  { destruct (process_char_first g s c)
      as [(_ & [Hs | (_ & Hs)]) | (_ & _ & _ & Hs)]; congruence. }
  destruct (and_then_cases (process_char rt g s c)
                           (fun s' => feed rt g s' rest))
    as [(_ & ->) | (_ & _ & -> & _)]; [exact Hf'|].
  now apply IH.
Qed.

Lemma flush_no_quick_yield (g : globals) (s : SentenceSplitter) :
  count_quick_yields (yielded (flush rt g s)) = 0.
Proof.
  apply count_quick_yields_none, Forall_forall. intros e He.
  apply flush_sites in He as [-> | ->]; discriminate.
Qed.

(** X6: unless "all sentences" or "every fragment" is switched on, a whole
    run of [generate_sentences] yields at most one first fragment; with
    "single fragment" off as well it yields none. *)
Theorem at_most_one_first_fragment
        (g : globals) (generator : list text) (o : options) :
  quick_yield_for_all_sentences o = false ->
  quick_yield_every_fragment o = false ->
  count_quick_yields (fst (snd (generate_sentences rt g generator o))) <= 1
  /\ (quick_yield_single_sentence_fragment o = false ->
      count_quick_yields (fst (snd (generate_sentences rt g generator o)))
      = 0).
Proof.
  intros Hall Hevery. rewrite generate_sentences_run.
  unfold feed_then_flush, then_flush.
  set (g' := fst (fst (__init__ rt g o))).
  set (s0 := snd (__init__ rt g o)).
  assert (Hc : config s0 = adjust_flags o)
    by (unfold s0; now rewrite init_splitter).
  assert (Hall' : quick_yield_for_all_sentences (adjust_flags o) = false)
    by (simpl; now rewrite Hall, Hevery).
  pose proof (feed_at_most_one g' (adjust_flags o) (concat generator)
                               Hall' Hevery s0 Hc) as H1.
  assert (H0 : quick_yield_single_sentence_fragment o = false ->
               count_quick_yields
                 (yielded (feed rt g' s0 (concat generator))) = 0).
  { intros Hs. apply (feed_none_when_off g' (adjust_flags o)); [|exact Hc].
    simpl. now rewrite Hall, Hevery, Hs. }
  destruct (raised (feed rt g' s0 (concat generator))); simpl.
  - auto.
  - rewrite count_quick_yields_app, flush_no_quick_yield, Nat.add_0_r. auto.
Qed.

(** X7: with "every fragment" on (and no first-character filter, and a
    first-fragment minimum that is not negative), whatever was read before,
    a soft delimiter that arrives with the buffer longer than
    [minimum_first_fragment_length] is answered at once: the buffer is
    yielded as a first fragment, without the tokenizer, and the splitter
    starts over with an empty buffer and stays armed. *)
Theorem every_fragment_yields_at_each_delimiter
        (g : globals) (o : options) (seen : text) (c : char) :
  quick_yield_every_fragment o = true ->
  filter_first_non_alnum_characters o = false ->
  (0 <= minimum_first_fragment_length o)%Z ->
  char_in c (sentence_fragment_delimiters o) = true ->
  let s := after (feed rt g (snd (__init__ rt g o)) seen) in
  (minimum_first_fragment_length o < len (lstrip (buffer s ++ [c])))%Z ->
  process_char rt g s c
  = {| yielded := [(QuickYield, clean rt o (lstrip (buffer s ++ [c])))];
       after := set_word_count (set_buffer (appended s c) []) 0;
       raised := None |}
  /\ is_first_sentence (after (process_char rt g s c)) = true.
Proof.
  intros Hevery Hf Hmin Hd s Hgate.
  assert (Hc : config s = adjust_flags o).
  { unfold s. now rewrite feed_config, init_splitter. }
  assert (Hfirst : is_first_sentence s = true).
  { unfold s. apply (feed_stays_first g (adjust_flags o)); auto;
      now rewrite init_splitter. }
  assert (E : process_char rt g s c
              = {| yielded := [(QuickYield,
                                clean rt o (lstrip (buffer s ++ [c])))];
                   after := set_word_count (set_buffer (appended s c) []) 0;
                   raised := None |}).
  { unfold process_char. rewrite Hc. cbn [filter_first_non_alnum_characters
      adjust_flags sentence_fragment_delimiters minimum_first_fragment_length
      quick_yield_single_sentence_fragment quick_yield_every_fragment
      force_first_fragment_after_words].
    rewrite Hf, andb_false_r, Hd, orb_true_r, Hevery. simpl orb.
    cbn [is_first_sentence buffer set_word_count set_buffer].
    rewrite Hfirst.
    destruct (Z.ltb_spec (minimum_first_fragment_length o)
                         (len (lstrip (buffer s ++ [c])))); [|lia].
    simpl andb.
    destruct (last_char (lstrip (buffer s ++ [c]))) as [l|e] eqn:El.
    - rewrite (last_char_snoc _ _ _ El), Hd. simpl orb.
      unfold quick_yield, appended.
      cbn [config buffer set_word_count set_buffer]. rewrite !Hc.
      cbn [quick_yield_every_fragment adjust_flags
           sentence_fragment_delimiters].
      rewrite Hevery, Hd, orb_true_r. reflexivity.
    - exfalso. unfold last_char in El.
      destruct (rev (lstrip (buffer s ++ [c]))) eqn:Er; [|discriminate].
      apply (f_equal (@rev char)) in Er. rewrite rev_involutive in Er.
      rewrite Er in *. unfold len in *. simpl in *. lia. }
  split; [exact E|]. rewrite E. simpl. unfold appended.
  destruct (_ || _); exact Hfirst.
Qed.

End FirstFragments.

Lemma at_most_one_first_fragment_witness :
  count_quick_yields
    (fst (snd (generate_sentences test_runtime module_globals
                 [str "Hello there, my friend, how are you, I wonder."]
                 (example_options 10 true 30 false "nltk"
                                  (Some simple_tokenize)))))
  <= 1.
Proof.
  exact (proj1 (at_most_one_first_fragment
                  test_runtime module_globals
                  [str "Hello there, my friend, how are you, I wonder."]
                  (example_options 10 true 30 false "nltk"
                                   (Some simple_tokenize))
                  eq_refl eq_refl)).
Defined.

Lemma every_fragment_yields_at_each_delimiter_witness :
  yielded (process_char test_runtime module_globals
             (after (feed test_runtime module_globals
                          (snd (__init__ test_runtime module_globals
                                         every_fragment_options))
                          (str "Hello there, my dear friend")))
             44%N)
  = [(QuickYield, str "my dear friend,")].
Proof.
  refine (f_equal yielded
            (proj1 (every_fragment_yields_at_each_delimiter
                      test_runtime module_globals every_fragment_options
                      (str "Hello there, my dear friend") 44%N
                      eq_refl eq_refl _ eq_refl _))).
  - vm_compute. discriminate.
  - vm_compute. reflexivity.
Defined.

(** ** Exceptions and small inputs *)

Section EdgeFacts.

Variable rt : runtime.





(** X9: with quick yield on and a negative [minimum_first_fragment_length],
    an input that begins with a whitespace character (and is not filtered)
    ends at once with [IndexError]: the stripped buffer is empty when its
    last character is read.  Nothing is yielded. *)
Theorem leading_space_raises_index_error
        (g : globals) (generator : list text) (o : options)
        (c : char) (rest : text) :
  (minimum_first_fragment_length o < 0)%Z ->
  quick_yield_single_sentence_fragment (adjust_flags o) = true ->
  filter_first_non_alnum_characters o = false ->
  isspace c = true ->
  concat generator = c :: rest ->
  snd (generate_sentences rt g generator o) = ([], Some IndexError).
Proof.
  intros Hmin Hq Hf Hc Hcat. rewrite generate_sentences_run, Hcat.
  unfold feed_then_flush. rewrite init_splitter. simpl feed.
  assert (E : forall s0,
             s0 = {| config := adjust_flags o; input_buffer := [];
                     buffer := []; is_first_sentence := true;
                     word_count := 0; last_delimiter_position := -1 |} ->
             process_char rt (fst (fst (__init__ rt g o))) s0 c
             = raising (appended s0 c) IndexError).
  { intros s0 ->. unfold process_char, appended.
    cbn [config buffer is_first_sentence word_count set_buffer
         set_word_count filter_first_non_alnum_characters adjust_flags
         minimum_first_fragment_length sentence_fragment_delimiters].
    rewrite Hf, andb_false_r, Hc. simpl orb. simpl app.
    unfold lstrip. simpl drop_while. rewrite Hc.
    cbn [config buffer is_first_sentence word_count set_buffer
         set_word_count].
    rewrite Hq. simpl andb.
    destruct (Z.ltb_spec (minimum_first_fragment_length o) (len []));
      [reflexivity | unfold len in *; simpl in *; lia]. }
  rewrite (then_flush_raised rt _ _ _ IndexError);
    rewrite (E _ eq_refl); reflexivity.
Qed.

(** A splitter with an empty buffer reads whitespace without any effect on
    what it yields: the buffer stays empty. *)
Lemma feed_spaces (g : globals) (o : options) (chunk : text) :
  (0 <= minimum_first_fragment_length o)%Z ->
  (0 <= minimum_sentence_length o + context_size o)%Z ->
  forallb isspace chunk = true ->
  forall s,
    config s = o -> buffer s = [] ->
    yielded (feed rt g s chunk) = []
    /\ raised (feed rt g s chunk) = None
    /\ buffer (after (feed rt g s chunk)) = [].
Proof.
  intros H1 H2. induction chunk as [|c rest IH]; intros Hs s Hc Hb; simpl;
    [auto|].
  simpl in Hs. apply andb_prop in Hs as [Hsc Hsr].
  assert (E : yielded (process_char rt g s c) = []
              /\ raised (process_char rt g s c) = None
              /\ buffer (after (process_char rt g s c)) = []).
  { assert (Hb2 : buffer (appended s c) = []).
    { rewrite appended_buffer, Hb. unfold lstrip. simpl. now rewrite Hsc. }
    destruct (process_char_cases rt g s c)
      as [(_ & _ & _ & E) | [(_ & Hl & _) | E]]; rewrite ?E.
    - auto.
    - rewrite Hb2, Hc in Hl. unfold len in Hl. simpl in Hl. lia.
    - unfold analyse. rewrite Hb2, appended_config, Hc.
      destruct (Z.leb_spec (len []) (minimum_sentence_length o
                                     + context_size o));
        [simpl; auto | unfold len in *; simpl in *; lia]. }
  destruct E as (Ey & Er & Eb).
  destruct (and_then_cases (process_char rt g s c)
                           (fun s' => feed rt g s' rest))
    as [(Hn & _) | (_ & -> & -> & ->)]; [congruence|].
  rewrite Ey. simpl. apply IH; auto. now rewrite process_char_config.
Qed.

(** X10: an input of whitespace only (the empty input included) yields
    nothing and raises nothing, whatever the tokenizer, provided neither
    [minimum_first_fragment_length] nor [minimum_sentence_length +
    context_size] is negative: the tokenizer is never called. *)
Theorem whitespace_only_input_yields_nothing
        (g : globals) (generator : list text) (o : options) :
  (0 <= minimum_first_fragment_length o)%Z ->
  (0 <= minimum_sentence_length o + context_size o)%Z ->
  forallb isspace (concat generator) = true ->
  snd (generate_sentences rt g generator o) = ([], None).
Proof.
  intros H1 H2 Hs. rewrite generate_sentences_run.
  unfold feed_then_flush, then_flush.
  destruct (feed_spaces (fst (fst (__init__ rt g o))) (adjust_flags o)
              (concat generator) H1 H2 Hs (snd (__init__ rt g o)))
    as (Ey & Er & Eb); try (now rewrite init_splitter).
  rewrite Er, Ey. unfold flush. rewrite Eb. reflexivity.
Qed.

Lemma flush_sentences_adjust (o : options) (sentences : list text)
      (sentence_buffer : text) :
  flush_sentences rt (adjust_flags o) sentence_buffer sentences
  = flush_sentences rt o sentence_buffer sentences.
Proof.
  revert sentence_buffer. induction sentences as [|x rest IH]; intros sb;
    simpl; [reflexivity|].
  now rewrite !IH.
Qed.

(** While the text read so far is no longer than [minimum_sentence_length +
    context_size] and quick yield is off, [stream] only appends. *)
Lemma feed_short (g : globals) (o : options) (chunk : text) :
  quick_yield_single_sentence_fragment o = false ->
  filter_first_non_alnum_characters o = false ->
  forall s seen,
    config s = o -> buffer s = lstrip seen ->
    (len (seen ++ chunk) <= minimum_sentence_length o + context_size o)%Z ->
    yielded (feed rt g s chunk) = []
    /\ raised (feed rt g s chunk) = None
    /\ buffer (after (feed rt g s chunk)) = lstrip (seen ++ chunk).
Proof.
  intros Hq Hf. induction chunk as [|c rest IH]; intros s seen Hc Hb Hlen;
    simpl.
  - rewrite app_nil_r. auto.
  - assert (Hb2 : buffer (appended s c) = lstrip (seen ++ [c]))
      by (now rewrite appended_buffer, Hb, lstrip_lstrip_app).
    assert (Hl2 : (len (buffer (appended s c))
                   <= minimum_sentence_length o + context_size o)%Z).
    { rewrite Hb2. unfold len, lstrip in *.
      pose proof (drop_while_length isspace (seen ++ [c])).
      rewrite !length_app in *. simpl in *. lia. }
    assert (E : process_char rt g s c = done (appended s c)).
    { destruct (process_char_cases rt g s c)
        as [(_ & Hf' & _) | [(_ & _ & Hq' & _) | E]]; rewrite ?Hc in *;
        try congruence.
      rewrite E.
      pose proof (analyse_cases rt g (appended s c) c) as Ha. cbv zeta in Ha.
      rewrite appended_config, Hc in Ha.
      destruct Ha as [[_ ->] | [Hgt _]]; [reflexivity | lia]. }
    rewrite E. unfold and_then. simpl.
    destruct (IH (appended s c) (seen ++ [c])) as (Ey & Er & Eb);
      [now rewrite appended_config | exact Hb2
       | now rewrite <- app_assoc |].
    rewrite <- app_assoc in Eb. auto.
Qed.

(** X11: with quick yield off and no first-character filter, an input no
    longer than [minimum_sentence_length + context_size] characters is never
    analysed by [stream]; all its sentences come from [flush], which
    tokenizes the input without its leading whitespace (and yields nothing
    for an input of whitespace only). *)
Theorem short_input_is_left_to_flush
        (g : globals) (generator : list text) (o : options) :
  quick_yield_single_sentence_fragment (adjust_flags o) = false ->
  filter_first_non_alnum_characters o = false ->
  (len (concat generator) <= minimum_sentence_length o + context_size o)%Z ->
  snd (generate_sentences rt g generator o)
  = if nonempty (lstrip (concat generator)) then
      match _tokenize_sentences rt (fst (fst (__init__ rt g o)))
                                (lstrip (concat generator))
                                (tokenize_sentences o) with
      | Ok sentences => (flush_sentences rt o [] sentences, None)
      | Raise e => ([], Some e)
      end
    else ([], None).
Proof.
  intros Hq Hf Hlen. rewrite generate_sentences_run.
  unfold feed_then_flush, then_flush.
  destruct (feed_short (fst (fst (__init__ rt g o))) (adjust_flags o)
              (concat generator) Hq Hf (snd (__init__ rt g o)) [])
    as (Ey & Er & Eb); try (now rewrite init_splitter); [exact Hlen|].
  simpl app in Eb. rewrite Er, Ey. unfold flush.
  rewrite Eb, feed_config, init_splitter.
  cbn [config tokenize_sentences adjust_flags].
  destruct (nonempty (lstrip (concat generator))); [|reflexivity].
  destruct (_tokenize_sentences rt _ _ _); simpl; [|reflexivity].
  now rewrite flush_sentences_adjust.
Qed.

End EdgeFacts.


Lemma leading_space_raises_index_error_witness :
  snd (generate_sentences test_runtime module_globals
         [str " Hello there."] negative_first_options)
  = ([], Some IndexError).
Proof.
  apply (leading_space_raises_index_error
           test_runtime module_globals [str " Hello there."]
           negative_first_options 32%N (str "Hello there."));
    try reflexivity.
Defined.

Lemma whitespace_only_input_yields_nothing_witness :
  snd (generate_sentences test_runtime module_globals
         [str "  "; []; [10%N; 9%N]]
         (example_options 10 true 30 false "spacy" None))
  = ([], None).
Proof.
  apply (whitespace_only_input_yields_nothing test_runtime);
    [vm_compute; discriminate | vm_compute; discriminate | reflexivity].
Defined.

Lemma short_input_is_left_to_flush_witness :
  snd (generate_sentences test_runtime module_globals
         [str " Hi. "; str "How are you?"] simple_options)
  = ([(FlushFull, str "Hi. How are you?")], None).
Proof.
  rewrite (short_input_is_left_to_flush
             test_runtime module_globals
             [str " Hi. "; str "How are you?"] simple_options eq_refl eq_refl);
    [reflexivity | vm_compute; discriminate].
Defined.

(** ** Tokenizers, the merge pass and the sanitizer *)

Section TokenizerFacts.

Variable rt : runtime.

(** The splitter reads the module globals only when it tokenizes: two states
    of the globals that give the same answers give the same run. *)
Lemma analyse_agree (g g' : globals) (s : SentenceSplitter) (c : char) :
  (forall t,
      _tokenize_sentences rt g t (tokenize_sentences (config s))
      = _tokenize_sentences rt g' t (tokenize_sentences (config s))) ->
  analyse rt g s c = analyse rt g' s c.
Proof. intros H. unfold analyse. now rewrite H. Qed.

Lemma process_char_agree (g g' : globals) (s : SentenceSplitter) (c : char) :
  (forall t,
      _tokenize_sentences rt g t (tokenize_sentences (config s))
      = _tokenize_sentences rt g' t (tokenize_sentences (config s))) ->
  process_char rt g s c = process_char rt g' s c.
Proof.
  intros H.
  assert (Ha : analyse rt g (appended s c) c = analyse rt g' (appended s c) c)
    by (apply analyse_agree; now rewrite appended_config).
  unfold appended in Ha. unfold process_char. now rewrite Ha.
Qed.

Lemma feed_agree (g g' : globals) (o : options) (chunk : text) :
  (forall t,
      _tokenize_sentences rt g t (tokenize_sentences o)
      = _tokenize_sentences rt g' t (tokenize_sentences o)) ->
  forall s, config s = o -> feed rt g s chunk = feed rt g' s chunk.
Proof.
  intros H. induction chunk as [|c rest IH]; intros s Hc; simpl;
    [reflexivity|].
  rewrite (process_char_agree g g' s c) by (now rewrite Hc).
  unfold and_then. destruct (raised (process_char rt g' s c)); [reflexivity|].
  rewrite IH by (now rewrite process_char_config). reflexivity.
Qed.

Lemma flush_agree (g g' : globals) (s : SentenceSplitter) :
  (forall t,
      _tokenize_sentences rt g t (tokenize_sentences (config s))
      = _tokenize_sentences rt g' t (tokenize_sentences (config s))) ->
  flush rt g s = flush rt g' s.
Proof. intros H. unfold flush. now rewrite H. Qed.

Lemma feed_then_flush_agree (g g' : globals) (o : options) (chunk : text)
      (s : SentenceSplitter) :
  (forall t,
      _tokenize_sentences rt g t (tokenize_sentences o)
      = _tokenize_sentences rt g' t (tokenize_sentences o)) ->
  config s = o ->
  feed_then_flush rt g s chunk = feed_then_flush rt g' s chunk.
Proof.
  intros H Hc. unfold feed_then_flush, then_flush.
  rewrite (feed_agree g g' o chunk H s Hc).
  rewrite (flush_agree g g'); [reflexivity|].
  now rewrite feed_config, Hc.
Qed.

(** X12: with a custom [tokenize_sentences] function the sentences do not
    depend on the module globals: neither the tokenizer another splitter
    selected nor a failed NLTK or Stanza initialisation changes them. *)
Theorem custom_tokenizer_ignores_globals
        (g g' : globals) (generator : list text) (o : options)
        (f : tokenize_fn) :
  tokenize_sentences o = Some f ->
  snd (generate_sentences rt g generator o)
  = snd (generate_sentences rt g' generator o).
Proof.
  intros Hf. rewrite !generate_sentences_run, !init_splitter.
  apply feed_then_flush_agree with (o := adjust_flags o); [|reflexivity].
  intros t. cbn [tokenize_sentences adjust_flags]. now rewrite Hf.
Qed.

(** X13: once Stanza is initialised, a later splitter that asks for Stanza
    in another language gets the pipeline of the first language: the module
    globals are left as they were, nothing is logged, and text is tokenized
    by the first pipeline. *)
Theorem stanza_keeps_first_language
        (g : globals) (o o' : options) (pipeline : tokenize_fn) :
  stanza_initialized g = false ->
  tokenizer o = "stanza"%string ->
  tokenizer o' = "stanza"%string ->
  stanza_Pipeline rt (language o) (debug o) = Some pipeline ->
  let g1 := fst (fst (__init__ rt g o)) in
  fst (__init__ rt g1 o') = (g1, [])
  /\ forall t, _tokenize_sentences rt g1 t None = pipeline t.
Proof.
  intros Hs Ho Ho' Hp g1.
  assert (E : g1 = {| current_tokenizer := "stanza";
                      stanza_initialized := true;
                      nltk_initialized := nltk_initialized g;
                      nlp := Some pipeline |}).
  { unfold g1. rewrite init_globals, Ho. unfold init_tokenizer. simpl.
    unfold initialize_stanza. simpl. now rewrite Hs, Hp. }
  split.
  - rewrite (surjective_pairing (fst (__init__ rt g1 o'))).
    rewrite init_globals, init_logs, Ho', E. reflexivity.
  - intros t. rewrite E. reflexivity.
Qed.

(** A tokenizer that fails on every text: [stream] appends until it first
    tokenizes, and then raises. *)
Lemma feed_failing (g : globals) (o : options) (e : exn) (chunk : text) :
  quick_yield_single_sentence_fragment o = false ->
  filter_first_non_alnum_characters o = false ->
  (forall t, _tokenize_sentences rt g t (tokenize_sentences o) = Raise e) ->
  forall s seen,
    config s = o -> buffer s = lstrip seen ->
    yielded (feed rt g s chunk) = []
    /\ (raised (feed rt g s chunk) = Some e
        \/ (raised (feed rt g s chunk) = None
            /\ config (after (feed rt g s chunk)) = o
            /\ buffer (after (feed rt g s chunk)) = lstrip (seen ++ chunk))).
Proof.
  intros Hq Hf Ht. induction chunk as [|c rest IH]; intros s seen Hc Hb;
    simpl.
  - rewrite app_nil_r. auto.
  - assert (Hb2 : buffer (appended s c) = lstrip (seen ++ [c]))
      by (now rewrite appended_buffer, Hb, lstrip_lstrip_app).
    assert (E : process_char rt g s c = done (appended s c)
                \/ process_char rt g s c
                   = raising (set_if_delimiter (appended s c) c) e).
    { destruct (process_char_cases rt g s c)
        as [(_ & Hf' & _) | [(_ & _ & Hq' & _) | E]]; rewrite ?Hc in *;
        try congruence.
      rewrite E.
      pose proof (analyse_cases rt g (appended s c) c) as Ha. cbv zeta in Ha.
      rewrite appended_config, Hc in Ha.
      destruct Ha as [[_ ->] | [_ [(x & Hx & ->) | (tokens & Hx & _)]]].
      - now left.
      - right. rewrite Ht in Hx. now injection Hx as <-.
      - rewrite Ht in Hx. discriminate. }
    destruct E as [-> | ->]; unfold and_then; simpl; [|auto].
    destruct (IH (appended s c) (seen ++ [c])) as (Ey & Er);
      [now rewrite appended_config | exact Hb2 |].
    rewrite <- app_assoc in Er. auto.
Qed.

Lemma failing_run (g : globals) (o : options) (e : exn) (chunk : text) :
  quick_yield_single_sentence_fragment o = false ->
  filter_first_non_alnum_characters o = false ->
  (forall t, _tokenize_sentences rt g t (tokenize_sentences o) = Raise e) ->
  nonempty (lstrip chunk) = true ->
  forall s,
    config s = o -> buffer s = [] ->
    feed_then_flush rt g s chunk = ([], Some e).
Proof.
  intros Hq Hf Ht Hn s Hc Hb. unfold feed_then_flush, then_flush.
  destruct (feed_failing g o e chunk Hq Hf Ht s [] Hc Hb)
    as (Ey & [Er | (Er & Ec & Eb)]); rewrite Er, Ey; [reflexivity|].
  simpl app in Eb. unfold flush. rewrite Eb, Hn, Ec, Ht. reflexivity.
Qed.

(** X14: a tokenizer failure is never swallowed.  With quick yield off and
    no first-character filter, when the tokenizer in effect raises [e] on
    every text, an input that is not only whitespace ends with [e], and no
    sentence is delivered before it. *)
Theorem tokenizer_failure_is_not_swallowed
        (g : globals) (generator : list text) (o : options) (e : exn) :
  quick_yield_single_sentence_fragment (adjust_flags o) = false ->
  filter_first_non_alnum_characters o = false ->
  (forall t,
      _tokenize_sentences rt (fst (fst (__init__ rt g o))) t
                          (tokenize_sentences o)
      = Raise e) ->
  nonempty (lstrip (concat generator)) = true ->
  snd (generate_sentences rt g generator o) = ([], Some e).
Proof.
  intros Hq Hf Ht Hn. rewrite generate_sentences_run.
  apply failing_run with (o := adjust_flags o); auto.
  - now rewrite init_splitter.
  - now rewrite init_splitter.
Qed.

(** X15: when the Stanza initialisation fails (the import, the download or
    the pipeline raises), [__init__] only logs and prints; the failure
    surfaces later, when text is first tokenized.  An input that is not only
    whitespace ends with [ModuleNotFoundError], from the [import stanza] of
    [_tokenize_sentences], when the package is not installed, and otherwise
    with [TypeError], from calling the pipeline that was never assigned.  No
    sentence is delivered. *)
Theorem failed_stanza_surfaces_when_tokenizing
        (g : globals) (generator : list text) (o : options) :
  tokenizer o = "stanza"%string ->
  tokenize_sentences o = None ->
  stanza_initialized g = false ->
  nlp g = None ->
  stanza_Pipeline rt (language o) (debug o) = None ->
  quick_yield_single_sentence_fragment (adjust_flags o) = false ->
  filter_first_non_alnum_characters o = false ->
  nonempty (lstrip (concat generator)) = true ->
  snd (fst (generate_sentences rt g generator o))
  = [LogInfo "Initializing Stanza Tokenizer";
     Printed "Error initializing stanza tokenizer"]
  /\ snd (generate_sentences rt g generator o)
     = ([], Some (if stanza_installed rt then TypeError
                  else ModuleNotFoundError)).
Proof.
  intros Ho Hn Hs Hnlp Hp Hq Hf Hne.
  assert (E : fst (__init__ rt g o)
              = ({| current_tokenizer := "stanza";
                    stanza_initialized := false;
                    nltk_initialized := nltk_initialized g;
                    nlp := None |},
                 [LogInfo "Initializing Stanza Tokenizer";
                  Printed "Error initializing stanza tokenizer"])).
  { rewrite (surjective_pairing (fst (__init__ rt g o))).
    rewrite init_globals, init_logs, Ho. unfold init_tokenizer. simpl.
    unfold initialize_stanza. simpl. now rewrite Hs, Hp, Hnlp. }
  split.
  - rewrite generate_sentences_unfold. simpl.
    unfold generate_sentences_async.
    destruct (__init__ rt g o) as [[g' l] s]. simpl in *. congruence.
  - rewrite generate_sentences_run.
    apply failing_run with (o := adjust_flags o); auto;
      try (now rewrite init_splitter).
    intros t. rewrite E. cbn [tokenize_sentences adjust_flags fst].
    rewrite Hn. simpl. now destruct (stanza_installed rt).
Qed.

End TokenizerFacts.

Lemma custom_tokenizer_ignores_globals_witness :
  snd (generate_sentences test_runtime module_globals
         [str "Hello there. How are "; str "you doing today? Fine."]
         simple_options)
  = snd (generate_sentences test_runtime unknown_tokenizer_globals
           [str "Hello there. How are "; str "you doing today? Fine."]
           simple_options).
Proof.
  exact (custom_tokenizer_ignores_globals
           test_runtime module_globals unknown_tokenizer_globals
           [str "Hello there. How are "; str "you doing today? Fine."]
           simple_options simple_tokenize eq_refl).
Defined.

Lemma stanza_keeps_first_language_witness :
  let g1 := fst (fst (__init__ stanza_runtime module_globals
                               (stanza_options "en"))) in
  fst (__init__ stanza_runtime g1 (stanza_options "de")) = (g1, [])
  /\ forall t, _tokenize_sentences stanza_runtime g1 t None
               = simple_tokenize t.
Proof.
  exact (stanza_keeps_first_language
           stanza_runtime module_globals (stanza_options "en")
           (stanza_options "de") simple_tokenize
           eq_refl eq_refl eq_refl eq_refl).
Defined.

Lemma tokenizer_failure_is_not_swallowed_witness :
  snd (generate_sentences test_runtime module_globals
         [str "Hello "; str "there."]
         (example_options 10 false 30 false "spacy" None))
  = ([], Some (ValueError "Unknown tokenizer: spacy")).
Proof.
  apply (tokenizer_failure_is_not_swallowed
           test_runtime module_globals [str "Hello "; str "there."]
           (example_options 10 false 30 false "spacy" None)
           (ValueError "Unknown tokenizer: spacy") eq_refl eq_refl);
    [intros t; reflexivity | reflexivity].
Defined.

Lemma failed_stanza_surfaces_when_tokenizing_witness :
  snd (fst (generate_sentences stanza_runtime module_globals
              [str "Bonjour "; str "tout le monde."] (stanza_options "fr")))
  = [LogInfo "Initializing Stanza Tokenizer";
     Printed "Error initializing stanza tokenizer"]
  /\ snd (generate_sentences stanza_runtime module_globals
            [str "Bonjour "; str "tout le monde."] (stanza_options "fr"))
     = ([], Some TypeError).
Proof.
  exact (failed_stanza_surfaces_when_tokenizing
           stanza_runtime module_globals
           [str "Bonjour "; str "tout le monde."] (stanza_options "fr")
           eq_refl eq_refl eq_refl eq_refl eq_refl eq_refl eq_refl eq_refl).
Defined.

(** ** The sanitizer and the merge pass *)

(** X16: [_remove_links] leaves no link behind: the pattern matches nowhere
    in its result.  It only deletes characters, and a text in which the
    pattern matches nowhere is returned as it is. *)
Theorem remove_links_removes_every_link (t : text) :
  linkfree (_remove_links t)
  /\ subtext (_remove_links t) t
  /\ (linkfree t -> _remove_links t = t).
Proof.
  split; [apply remove_links_linkfree|].
  split; [apply subtext_sub_links | apply remove_links_fixed].
Qed.

(** X17: whatever its switches, [_clean_text] only deletes characters: the
    result is the input with some characters left out, in the same order,
    and never longer. *)
Theorem clean_text_only_deletes
        (is_emoji : char -> bool) (t : text) (links emojis strip_text : bool) :
  subtext (_clean_text is_emoji t links emojis strip_text) t
  /\ (len (_clean_text is_emoji t links emojis strip_text) <= len t)%Z.
Proof.
  pose proof (subtext_clean_text is_emoji t links emojis strip_text) as H.
  split; [exact H|]. apply subtext_length in H. unfold len. lia.
Qed.

Lemma combine_sentences_count (min : Z) (tokens : list text) :
  forall temp,
    length (combine_sentences min temp tokens)
    <= length tokens + (if nonempty temp then 1 else 0).
Proof.
  induction tokens as [|s rest IH]; intros temp; simpl.
  - destruct (nonempty temp); simpl; lia.
  - destruct (len s <? min)%Z.
    + specialize (IH (temp ++ s ++ str " ")).
      destruct (nonempty (temp ++ s ++ str " ")), (nonempty temp); lia.
    + specialize (IH []). simpl in IH.
      destruct (nonempty temp); simpl; lia.
Qed.

Lemma combine_sentences_stripped (min : Z) (tokens : list text) :
  forall temp,
    Forall (fun x => strip x = x) (combine_sentences min temp tokens).
Proof.
  induction tokens as [|s rest IH]; intros temp; simpl.
  - destruct (nonempty temp); constructor; [apply strip_idem | constructor].
  - destruct (len s <? min)%Z; [apply IH|].
    destruct (nonempty temp); constructor; try apply strip_idem; apply IH.
Qed.

(** X18: the merge pass of [stream] over the tokenizer's sentences keeps
    their text up to whitespace, never returns more sentences than it was
    given, and returns every sentence stripped. *)
Theorem merge_pass_keeps_the_text (min : Z) (tokens : list text) :
  squash (concat (combine_sentences min [] tokens)) = squash (concat tokens)
  /\ length (combine_sentences min [] tokens) <= length tokens
  /\ Forall (fun x => strip x = x) (combine_sentences min [] tokens).
Proof.
  split; [apply (combine_sentences_squash min tokens [])|].
  split; [|apply combine_sentences_stripped].
  pose proof (combine_sentences_count min tokens []) as H. simpl in H. lia.
Qed.

(** ** The asynchronous entry point *)

Section AsyncFacts.

Variable rt : runtime.

Lemma drive_without_suspensions (g : globals) (generator : async_source) :
  forall s,
    run_async (drive rt g s generator)
    = run_async (drive rt g s (without_suspensions generator)).
Proof.
  unfold run_async.
  induction generator as [chunk rest IH | rest IH | | e]; intros s; simpl;
    try reflexivity.
  - destruct (raised (stream rt g (add s chunk))); [reflexivity|]. simpl.
    rewrite !awaited_yields.
    specialize (IH (after (stream rt g (add s chunk)))).
    injection IH as -> ->. reflexivity.
  - apply IH.
Qed.

(** X19: where the source of [generate_sentences_async] suspends does not
    matter to its consumer: the sentences delivered, and the way the run
    ends, are those of the same source without its suspensions. *)
Theorem suspensions_do_not_change_sentences
        (g : globals) (generator : async_source) (o : options) :
  run_async (snd (generate_sentences_async rt g generator o))
  = run_async
      (snd (generate_sentences_async rt g (without_suspensions generator) o)).
Proof.
  rewrite !generate_async_behaviour. apply drive_without_suspensions.
Qed.

Lemma drive_raising_source (g : globals) (chunks : list text) (e : exn) :
  forall s,
    input_buffer s = [] ->
    run_async (drive rt g s (raising_source chunks e))
    = (yielded (feed rt g s (concat chunks)),
       Some match raised (feed rt g s (concat chunks)) with
            | Some e' => e'
            | None => e
            end).
Proof.
  unfold run_async.
  induction chunks as [|chunk rest IH]; intros s Hs; simpl; [reflexivity|].
  rewrite stream_add by exact Hs. rewrite feed_app. unfold and_then.
  destruct (raised (feed rt g s chunk)) eqn:Er; simpl.
  - rewrite Er. now rewrite awaited_yields_only.
  - rewrite awaited_yields.
    specialize (IH (after (feed rt g s chunk))).
    rewrite feed_input_buffer in IH. specialize (IH Hs).
    injection IH as -> ->. reflexivity.
Qed.

(** X20: when the source raises instead of stopping, the run ends with an
    exception and [flush] is never reached: the consumer gets the sentences
    [stream] yielded from the chunks delivered so far, and the text still in
    the buffer is not delivered. *)
Theorem source_exception_skips_flush
        (g : globals) (chunks : list text) (e : exn) (o : options) :
  let g1 := fst (fst (__init__ rt g o)) in
  let r := feed rt g1 (snd (__init__ rt g o)) (concat chunks) in
  run_async (snd (generate_sentences_async rt g (raising_source chunks e) o))
  = (yielded r,
     Some match raised r with
          | Some e' => e'
          | None => e
          end).
Proof.
  cbv zeta. rewrite generate_async_behaviour.
  apply drive_raising_source. now rewrite init_splitter.
Qed.

End AsyncFacts.
